(** * Website monitor: windowed statistics, availability alerts, recurring tasks

    Shallow embedding of [retriever.py] (class [Retriever]: [getStats],
    [checkAlert]) and of the two self-rescheduling tasks of [main.py]
    ([App.__getResults], [App.__printResults], [App.run]).

    Conventions of the embedding.
    - Python [int] counts are [nat]; the countdown of the report task is [Z].
    - Python [float] values are read as exact rationals [Q]; [float('inf')]
      is the extra value [Inf] of [number].  The threshold test
      [availability >= 0.8] is the exact comparison with 8/10.
    - An exception is a value [Raise e] of [result]; an object mutated in
      place ([self.alertData]) is passed in and returned.
    - The InfluxDB client is the boundary of the program: the answer of each
      query is an input of the function that issues it, and
      [write_points] is recorded as the list of points handed to it.
    - A callback of a [threading.Timer] runs in a thread of its own; a thread
      carries a clock on which starting a timer takes no time, a timer fires
      after exactly its interval, and a probe takes the time it is given.
    - The probe itself ([Monitor.get]), the rendering of the report and the
      loading of the configuration are outside of the embedding. *)

From Stdlib Require Import QArith Qminmax Lqa.
From stdpp Require Import gmap strings list fin_maps pretty.

Local Open Scope string_scope.

(** ** Exceptions *)

Inductive exn := KeyError | ZeroDivisionError.

Inductive result (A : Type) :=
| Ok (a : A)
| Raise (e : exn).
Arguments Ok {A} a.
Arguments Raise {A} e.

#[global] Instance result_ret : MRet result := fun _ a => Ok a.
#[global] Instance result_bind : MBind result := fun _ _ k r =>
  match r with
  | Ok a => k a
  | Raise e => Raise e
  end.
#[global] Instance result_fmap : FMap result := fun _ _ f r =>
  match r with
  | Ok a => Ok (f a)
  | Raise e => Raise e
  end.

Definition returns {A} (r : result A) : Prop := exists a, r = Ok a.
Definition faults {A} (r : result A) : Prop := exists e, r = Raise e.

(** ** [collections.Counter] *)

Module Counter.
Section Counter.
Context {K : Type} `{Countable K}.

(** One step of [Counter(iterable)]: [c[k] += 1]. *)
Definition incr (c : gmap K nat) (k : K) : gmap K nat :=
  <[k := S (default 0 (c !! k))]> c.

(** [Counter(l)]: the elements are counted from left to right. *)
Definition of_list (l : list K) : gmap K nat := foldl incr ∅ l.

(** [c[k]]: a missing key reads as 0. *)
Definition get (c : gmap K nat) (k : K) : nat := default 0 (c !! k).

(** [sum(c.values())]. *)
Definition total (c : gmap K nat) : nat :=
  map_fold (fun _ v acc => v + acc) 0 c.
End Counter.
End Counter.

(** ** Numbers *)

(** A float result that may be [float('inf')]. *)
Inductive number :=
| Fin (q : Q)
| Inf.

(** [a / b] on two ints. *)
Definition truediv (a b : nat) : result Q :=
  match b with
  | O => Raise ZeroDivisionError
  | S _ => Ok (Z.of_nat a # Pos.of_nat b)
  end.

(** [sum(l)] on numbers. *)
Definition sum (l : list Q) : Q := foldl Qplus 0%Q l.

(** [sum(l) / n] with [n] an int. *)
Definition divide (s : Q) (n : nat) : result Q :=
  match n with
  | O => Raise ZeroDivisionError
  | S _ => Ok (s / inject_Z (Z.of_nat n))%Q
  end.

(** [min(l, default=d)]: the first smallest element, [d] on an empty list. *)
Definition py_min (l : list Q) (d : number) : number :=
  match l with
  | [] => d
  | x :: l' =>
      Fin (foldl (fun cur y => match (y ?= cur)%Q with Lt => y | _ => cur end) x l')
  end.

(** [max(l, default=d)]: the first largest element, [d] on an empty list. *)
Definition py_max (l : list Q) (d : number) : number :=
  match l with
  | [] => d
  | x :: l' =>
      Fin (foldl (fun cur y => match (y ?= cur)%Q with Gt => y | _ => cur end) x l')
  end.

(** ** Query answers *)

(** [datetime] values: microseconds since the epoch, UTC. *)
Definition datetime := Z.
Bind Scope Z_scope with datetime.

(** [d.strftime('%Y-%m-%dT%H:%M:%SZ')]: the stamp to the second. *)
Definition strftime (d : datetime) : Z := (d / 1000000)%Z.

(** A row of [SELECT available, status, responseTime]:
    [elt[0]] is the time, then the three fields; [None] is an absent field. *)
Record ProbeRow := {
  row_time : Z;
  available : option bool;
  status : option Z;
  responseTime : option Q
}.

(** A row of [SELECT available]: [elt[0]] the time, [elt[1]] the field. *)
Definition AlertRow : Type := Z * option bool.

(** [query(...).raw]: [None] when the dictionary has no ['series'] key,
    [Some values] for [raw['series'][0]['values']]. *)
Definition Raw (R : Type) : Type := option (list R).

(** [raw['series'][0]['values']] *)
Definition series_values {R} (raw : Raw R) : result (list R) :=
  match raw with
  | Some values => Ok values
  | None => Raise KeyError
  end.

(** What the store answers at the time of a call. *)
Record InfluxDBClient := {
  (* SELECT available, status, responseTime FROM website_availability
     WHERE time > now() - {minutes}m AND host = '{URL}' *)
  query_stats : nat -> string -> Raw ProbeRow;
  (* SELECT available FROM website_availability
     WHERE time > now() - 2m AND host = '{URL}' *)
  query_available : string -> Raw AlertRow
}.

(** ** [Retriever] *)

Record AlertData := {
  alertStatus : bool;
  alertNumber : nat;
  alertTime : datetime
}.

Record Retriever := {
  URL : string;
  alertData : AlertData
}.

(** [Retriever.__init__]; [now] is [datetime.now()]. *)
Definition init (url : string) (now : datetime) : Retriever :=
  {| URL := url;
     alertData := {| alertStatus := false; alertNumber := 0; alertTime := now |} |}.

(** The dictionary returned by [getStats]. *)
Record Stats := {
  availability : Q;
  statusCodes : gmap (option Z) nat;
  avgRT : number;
  minRT : number;
  maxRT : number
}.

(** [{}] or the dictionary of statistics. *)
Inductive StatsDict :=
| EmptyDict
| StatsOf (s : Stats).

(** [getStats] on the answer [data] of its query. *)
Definition stats_of (data : Raw ProbeRow) : result (bool * StatsDict) :=
  match data with
  | Some values =>
      let availables := Counter.of_list (omap available values) in
      let responseTimes := omap responseTime values in
      let statusCodes := Counter.of_list (map status values) in
      let nRT := length responseTimes in
      let minRT := py_min responseTimes Inf in
      let maxRT := py_max responseTimes Inf in
      let avgRT :=
        match divide (sum responseTimes) nRT with
        | Ok q => Fin q
        | Raise _ => Inf
        end in
      let n := Counter.total availables in
      availability ← truediv (Counter.get availables true) n;
      Ok (true, StatsOf {| availability := availability;
                           statusCodes := statusCodes;
                           avgRT := avgRT;
                           minRT := minRT;
                           maxRT := maxRT |})
  | None => Ok (false, EmptyDict)
  end.

Definition getStats (self : Retriever) (influxClient : InfluxDBClient)
    (minutes : nat) : result (bool * StatsDict) :=
  stats_of (query_stats influxClient minutes (URL self)).

(** ** [checkAlert] *)

(** Comparisons of two floats. *)
Definition ge (a b : Q) : bool :=
  match (a ?= b)%Q with Lt => false | _ => true end.
Definition lt (a b : Q) : bool :=
  match (a ?= b)%Q with Lt => true | _ => false end.

(** The literal [0.8]. *)
Definition threshold : Q := 8 # 10.

(** A record handed to [write_points]. *)
Record Point := {
  measurement : string;
  host : string;
  time : Z;
  field_type : string;
  field_availability : Q
}.

(** The dictionary returned by [checkAlert]: [{ "type": None }] or the five
    fields of an alert or recovery notification. *)
Inductive Notification :=
| NoNotification
| Notify (type : string) (url : string) (availability : Q)
    (alertTime : datetime) (alertNumber : string).

(** The first four lines of [checkAlert]: the availability of the website on
    the answer of [SELECT available], every returned row counted. *)
Definition alert_ratio (raw : Raw AlertRow) : result Q :=
  values ← series_values raw;
  let availables := Counter.of_list (map snd values) in
  let n := Counter.total availables in
  truediv (Counter.get availables (Some true)) n.

(** [checkAlert]: the retriever after the call, the points handed to
    [write_points] and the returned dictionary or the exception raised.
    [currentDate] is [datetime.utcnow()]. *)
Definition checkAlert (self : Retriever) (influxClient : InfluxDBClient)
    (currentDate : datetime) : Retriever * list Point * result Notification :=
  match alert_ratio (query_available influxClient (URL self)) with
  | Raise e => (self, [], Raise e)
  | Ok availability =>
      let d := alertData self in
      if alertStatus d && ge availability threshold then
        let data := [ {| measurement := "website_alerts";
                         host := URL self;
                         time := strftime currentDate;
                         field_type := "recovery";
                         field_availability := availability |} ] in
        let self' :=
          {| URL := URL self;
             alertData := {| alertStatus := false;
                             alertNumber := alertNumber d;
                             alertTime := alertTime d |} |} in
        (self', data,
         Ok (Notify "recovery" (URL self) availability currentDate
               (pretty (alertNumber d))))
      else if alertStatus d then
        (self, [],
         Ok (Notify "alert" (URL self) availability (alertTime d)
               (pretty (alertNumber d))))
      else if negb (alertStatus d) && lt availability threshold then
        let data := [ {| measurement := "website_alerts";
                         host := URL self;
                         time := strftime currentDate;
                         field_type := "alert";
                         field_availability := availability |} ] in
        let self' :=
          {| URL := URL self;
             alertData := {| alertStatus := true;
                             alertNumber := alertNumber d + 1;
                             alertTime := currentDate |} |} in
        (self', data,
         Ok (Notify "alert" (URL self) availability currentDate
               (pretty (alertNumber d + 1))))
      else (self, [], Ok NoNotification)
  end.

(** The retriever left by a call, the points it wrote, what it returned. *)
Definition after (self : Retriever) (c : InfluxDBClient) (t : datetime) : Retriever :=
  (checkAlert self c t).1.1.
Definition written (self : Retriever) (c : InfluxDBClient) (t : datetime) : list Point :=
  (checkAlert self c t).1.2.
Definition returned (self : Retriever) (c : InfluxDBClient) (t : datetime)
    : result Notification :=
  (checkAlert self c t).2.

(** Successive calls of [checkAlert] on one retriever, each with the store's
    answer and the clock at that call. *)
Fixpoint checks (self : Retriever) (calls : list (InfluxDBClient * datetime)) : Retriever :=
  match calls with
  | [] => self
  | (c, t) :: calls' => checks (after self c t) calls'
  end.

(** Number of calls of a run that take the retriever from healthy to alerting. *)
Fixpoint raised (self : Retriever) (calls : list (InfluxDBClient * datetime)) : nat :=
  match calls with
  | [] => 0
  | (c, t) :: calls' =>
      (if negb (alertStatus (alertData self))
          && alertStatus (alertData (after self c t)) then 1 else 0)
      + raised (after self c t) calls'
  end.

(** The status of a retriever, as the spec names it. *)
Definition Healthy (r : Retriever) : Prop := alertStatus (alertData r) = false.
Definition Alerting (r : Retriever) : Prop := alertStatus (alertData r) = true.

(** ** [main.py]: the recurring tasks *)

Module App.

(** The callback and arguments of a [threading.Timer]. *)
Inductive Task :=
| getResults_task (monitor : string) (checkInterval : Q)
| printResults_task (printInterval : Q) (countdownToNextMinute : Z).

(** The thread that runs a callback: its clock (seconds), the timers it
    started, each with the time at which it fires, and the probes it ran,
    each with its target and the times at which [monitor.get()] was entered
    and left. *)
Record Thread := {
  clock : Q;
  timers : list (Q * Task);
  probes : list (string * Q * Q)
}.

Definition spawn (t : Q) : Thread := {| clock := t; timers := []; probes := [] |}.

(** [threading.Timer(interval, f, args).start()]: [f] runs in a thread of its
    own [interval] seconds after the call. *)
Definition Timer_start (interval : Q) (f : Task) (th : Thread) : Thread :=
  {| clock := clock th;
     timers := timers th ++ [((clock th + interval)%Q, f)];
     probes := probes th |}.

(** [monitor.get()], a probe that takes [duration] seconds. *)
Definition Monitor_get (monitor : string) (duration : Q) (th : Thread) : Thread :=
  {| clock := (clock th + duration)%Q;
     timers := timers th;
     probes := probes th ++ [(monitor, clock th, (clock th + duration)%Q)] |}.

(** [App.__getResults]; [duration] is the time [monitor.get()] takes. *)
Definition getResults (monitor : string) (checkInterval : Q) (duration : Q)
    (th : Thread) : Thread :=
  let th := Timer_start checkInterval (getResults_task monitor checkInterval) th in
  Monitor_get monitor duration th.

(** The firings of one probe task: the first one starts at [start], each next
    one when the timer started by the one before fires; [durations] are the
    times the successive probes take. *)
Fixpoint probe_firings (start : Q) (monitor : string) (checkInterval : Q)
    (durations : list Q) : list Thread :=
  match durations with
  | [] => []
  | d :: ds =>
      let th := getResults monitor checkInterval d (spawn start) in
      th :: match timers th with
            | (fire, getResults_task m i) :: _ => probe_firings fire m i ds
            | _ => []
            end
  end.

(** What one pass of the loop of [__printResults] computes for a website. *)
Record TargetReport := {
  report_alert : Notification;
  report_2m : bool * StatsDict;
  report_10m : bool * StatsDict;
  report_1h : option (bool * StatsDict)
}.

(** The body of the loop of [__printResults] up to the rendering. *)
Definition report_target (c : InfluxDBClient) (now : datetime)
    (printMinuteCheck : bool) (retriever : Retriever)
    : Retriever * list Point * result TargetReport :=
  let '(retriever', points, alert) := checkAlert retriever c now in
  (retriever', points,
   alertStatus ← alert;
   stats2m ← getStats retriever' c 2;
   stats10m ← getStats retriever' c 10;
   stats1h ← (if printMinuteCheck then Some <$> getStats retriever' c 60
              else Ok None);
   Ok {| report_alert := alertStatus;
         report_2m := stats2m;
         report_10m := stats10m;
         report_1h := stats1h |}).

(** [for website, retriever in retrievers.items()]: an exception ends the
    loop, the retrievers stay as the calls made so far left them. *)
Fixpoint report_loop (c : InfluxDBClient) (now : datetime)
    (printMinuteCheck : bool) (retrievers : list (string * Retriever))
    : list (string * Retriever) * list Point * result (list TargetReport) :=
  match retrievers with
  | [] => ([], [], Ok [])
  | (website, retriever) :: rest =>
      let '(retriever', points, r) := report_target c now printMinuteCheck retriever in
      match r with
      | Raise e => ((website, retriever') :: rest, points, Raise e)
      | Ok report =>
          let '(rest', points', reports) := report_loop c now printMinuteCheck rest in
          ((website, retriever') :: rest', (points ++ points')%list, cons report <$> reports)
      end
  end.

(** The head of [__printResults]: the timer it starts and [printMinuteCheck]. *)
Definition rearm (printInterval : Q) (countdownToNextMinute : Z) : Task * bool :=
  if (countdownToNextMinute =? 0)%Z
  then (printResults_task printInterval 5, true)
  else (printResults_task printInterval (countdownToNextMinute - 1), false).

(** [App.__printResults] up to the rendering: the timer started, the flag
    [printMinuteCheck], and the outcome of the loop over the retrievers. *)
Definition printResults (retrievers : list (string * Retriever))
    (printInterval : Q) (countdownToNextMinute : Z)
    (c : InfluxDBClient) (now : datetime) (th : Thread)
    : Thread * bool
      * (list (string * Retriever) * list Point * result (list TargetReport)) :=
  let '(resultsPrinting, printMinuteCheck) := rearm printInterval countdownToNextMinute in
  let th := Timer_start printInterval resultsPrinting th in
  (th, printMinuteCheck, report_loop c now printMinuteCheck retrievers).

(** [App.run]: the timers started at startup, the report task first. *)
Definition run (monitors : list (string * Q)) (th : Thread) : Thread :=
  let th := Timer_start 10 (printResults_task 10 5) th in
  foldl (fun th '(website, checkI) =>
           Timer_start checkI (getResults_task website checkI) th)
        th monitors.

(** The countdown handed to the [k]-th firing of the report task, [k]
    counted from 1: 5 at the first, as [run] starts it, then the one of the
    timer started by the firing before. *)
Fixpoint countdown_of_firing (k : nat) : Z :=
  match k with
  | 0 | 1 => 5
  | S k' =>
      match (rearm 10 (countdown_of_firing k')).1 with
      | printResults_task _ countdown => countdown
      | getResults_task _ _ => 0
      end
  end.

(** Whether the [k]-th firing of the report task computes the 60-minute
    statistics. *)
Definition minuteCheck_of_firing (k : nat) : bool :=
  (rearm 10 (countdown_of_firing k)).2.

End App.

(** ** Notions used to state the properties *)

(** Records of a window whose availability is [True], and records whose
    availability is not absent. *)
Definition healthy (values : list ProbeRow) : nat :=
  length (filter (fun r => available r = Some true) values).
Definition present (values : list ProbeRow) : nat :=
  length (filter (fun r => is_Some (available r)) values).

(** [adds_absent l l']: the window [l'] is the window [l] with records of
    absent availability added, anywhere. *)
Inductive adds_absent : list ProbeRow -> list ProbeRow -> Prop :=
| adds_done : adds_absent [] []
| adds_keep r l l' : adds_absent l l' -> adds_absent (r :: l) (r :: l')
| adds_new r l l' :
    available r = None -> adds_absent l l' -> adds_absent l (r :: l').

(** The row that [SELECT available] shows of a record. *)
Definition alert_view (r : ProbeRow) : AlertRow := (row_time r, available r).

(** The point that [checkAlert] writes on a transition. *)
Definition alert_event (kind : string) (self : Retriever) (t : datetime) (a : Q) : Point :=
  {| measurement := "website_alerts";
     host := URL self;
     time := strftime t;
     field_type := kind;
     field_availability := a |}.

(** Every call is in one of five cases. *)
Inductive outcome (self : Retriever) (c : InfluxDBClient) (t : datetime) : Prop :=
| out_raise e :
    alert_ratio (query_available c (URL self)) = Raise e ->
    after self c t = self -> written self c t = [] ->
    outcome self c t
| out_recovery a :
    alert_ratio (query_available c (URL self)) = Ok a ->
    Alerting self -> ge a threshold = true ->
    Healthy (after self c t) ->
    alertNumber (alertData (after self c t)) = alertNumber (alertData self) ->
    written self c t = [alert_event "recovery" self t a] ->
    outcome self c t
| out_ongoing a :
    alert_ratio (query_available c (URL self)) = Ok a ->
    Alerting self -> lt a threshold = true ->
    after self c t = self -> written self c t = [] ->
    outcome self c t
| out_alert a :
    alert_ratio (query_available c (URL self)) = Ok a ->
    Healthy self -> lt a threshold = true ->
    Alerting (after self c t) ->
    alertNumber (alertData (after self c t)) = alertNumber (alertData self) + 1 ->
    written self c t = [alert_event "alert" self t a] ->
    outcome self c t
| out_healthy a :
    alert_ratio (query_available c (URL self)) = Ok a ->
    Healthy self -> ge a threshold = true ->
    after self c t = self -> written self c t = [] ->
    outcome self c t.

(** The spans of the probes run by a list of firings, in order. *)
Definition probe_spans (ths : list App.Thread) : list (Q * Q) :=
  flat_map (fun th => map (fun p => (p.1.2, p.2)) (App.probes th)) ths.

(** No probe starts before the one before it has ended. *)
Fixpoint sequential (spans : list (Q * Q)) : Prop :=
  match spans with
  | [] => True
  | s :: rest =>
      match rest with
      | [] => True
      | s' :: _ => (s.2 <= s'.1)%Q /\ sequential rest
      end
  end.

(** Every timer started by the thread fires [interval] seconds after the
    thread has finished. *)
Definition rearms_after_completion (th : App.Thread) (interval : Q) : Prop :=
  Forall (fun timer => (timer.1 == App.clock th + interval)%Q) (App.timers th).

(** [n] instants from [start], [interval] apart. *)
Fixpoint grid (start interval : Q) (n : nat) : list Q :=
  match n with
  | 0 => []
  | S n' => start :: grid (start + interval)%Q interval n'
  end.

(** What the report of a website holds, by the flag [printMinuteCheck]. *)
Definition reports_windows (c : InfluxDBClient) (printMinuteCheck : bool)
    (entry : string * Retriever) (report : App.TargetReport) : Prop :=
  getStats entry.2 c 2 = Ok (App.report_2m report)
  /\ getStats entry.2 c 10 = Ok (App.report_10m report)
  /\ match App.report_1h report with
     | Some stats1h => printMinuteCheck = true /\ getStats entry.2 c 60 = Ok stats1h
     | None => printMinuteCheck = false
     end.

(** ** Sample stores *)

Module Sample.

Definition row (a : option bool) (s : option Z) (rt : option Q) : ProbeRow :=
  {| row_time := 0; available := a; status := s; responseTime := rt |}.

(** A store that answers every statistics query with [stats] and every
    alert query with [alert]. *)
Definition client (stats : Raw ProbeRow) (alert : Raw AlertRow) : InfluxDBClient :=
  {| query_stats := fun _ _ => stats; query_available := fun _ => alert |}.

(** A store that shows the same records to both queries. *)
Definition store (records : Raw ProbeRow) : InfluxDBClient :=
  client records (map alert_view <$> records).

Definition site : Retriever := init "http://example.org" 0%Z.

(** One probe that succeeded, one that failed, one without availability. *)
Definition mixed : list ProbeRow :=
  [ row (Some true) (Some 200%Z) (Some (3 # 10));
    row (Some false) None None;
    row None (Some 200%Z) (Some (1 # 10)) ].

(** A window whose only record has no availability. *)
Definition unknown : list ProbeRow := [ row None (Some 200%Z) (Some (1 # 4)) ].

(** Availability present, every response time absent. *)
Definition silent : list ProbeRow :=
  [ row (Some true) (Some 200%Z) None; row (Some false) None None ].

(** A window that is all up, one that is half down, and one with a record
    up and a record without availability. *)
Definition up : list ProbeRow := [ row (Some true) (Some 200%Z) (Some (1 # 10)) ].
Definition down : list ProbeRow :=
  [ row (Some true) (Some 200%Z) (Some (1 # 10)); row (Some false) None None ].
Definition partial : list ProbeRow :=
  [ row (Some true) (Some 200%Z) (Some (1 # 10));
    row None (Some 200%Z) (Some (1 # 10)) ].

(** The site after a first alert. *)
Definition alerted : Retriever := after site (store (Some down)) 60000000.

Definition mixed_stats : Stats :=
  {| availability := 1 # 2;
     statusCodes := Counter.of_list [Some 200%Z; None; Some 200%Z];
     avgRT := Fin (40 # 200);
     minRT := Fin (1 # 10);
     maxRT := Fin (3 # 10) |}.

(** One firing of the report task with the countdown at 0, on a store
    that shows the window [up] for the one website. *)
Definition websites : list (string * Retriever) := [ (URL site, site) ].
Definition reports : list App.TargetReport :=
  match (App.printResults websites 10 0 (store (Some up)) 60000000
           (App.spawn 0)).2.2 with
  | Ok reports => reports
  | Raise _ => []
  end.

End Sample.

(** ** Notions used to state further properties of [Retriever] *)

(** Records of a window with a given status code ([None]: no code). *)
Definition with_status (k : option Z) (values : list ProbeRow) : nat :=
  length (filter (fun r => status r = k) values).

(** Rows of [SELECT available] whose availability is [True]. *)
Definition trues (values : list AlertRow) : nat :=
  length (filter (fun row => row.2 = Some true) values).

(** The points written by successive calls of [checkAlert], in order. *)
Fixpoint log (self : Retriever) (calls : list (InfluxDBClient * datetime)) : list Point :=
  match calls with
  | [] => []
  | (c, t) :: calls' => written self c t ++ log (after self c t) calls'
  end.

(** Number of points of a kind among the points written. *)
Definition events (kind : string) (points : list Point) : nat :=
  length (filter (fun p => field_type p = kind) points).

(** A call that cannot end an alert: it raises, or its ratio is below 0.8. *)
Definition low (self : Retriever) (call : InfluxDBClient * datetime) : Prop :=
  forall a, alert_ratio (query_available call.1 (URL self)) = Ok a ->
            (a < threshold)%Q.

(** The type of a returned dictionary, [None] for [{ "type": None }]. *)
Definition kind_of (n : Notification) : option string :=
  match n with
  | NoNotification => None
  | Notify type _ _ _ _ => Some type
  end.

(** 0 for a healthy retriever, 1 for an alerting one. *)
Definition alerting (r : Retriever) : nat :=
  if alertStatus (alertData r) then 1 else 0.


(** ** Notions used to state further properties of the tasks *)

(** Successive firings of the report task on the same retrievers: each
    firing runs [__printResults] with the countdown of the timer started by
    the firing before, on the store and the clock of its tick; the result is
    the retrievers after the last firing and the points written. *)
Fixpoint report_firings (retrievers : list (string * Retriever))
    (printInterval : Q) (countdown : Z)
    (ticks : list (InfluxDBClient * datetime))
    : list (string * Retriever) * list Point :=
  match ticks with
  | [] => (retrievers, [])
  | (c, now) :: ticks' =>
      let '(th, _, (retrievers', points, _)) :=
        App.printResults retrievers printInterval countdown c now (App.spawn 0) in
      match App.timers th with
      | (_, App.printResults_task i cd) :: _ =>
          let '(final, points') := report_firings retrievers' i cd ticks' in
          (final, (points ++ points')%list)
      | _ => (retrievers', points)
      end
  end.

(** A website is kept, with its URL, and its alert number has not gone down. *)
Definition kept (old new : string * Retriever) : Prop :=
  new.1 = old.1 /\ URL new.2 = URL old.2
  /\ alertNumber (alertData old.2) <= alertNumber (alertData new.2).


(** ** [main.py]: the configuration *)

Module Config.

(** A value read by [json.loads]; the members of an object are kept as they
    are written, and read as a dictionary by [get] and [keys]. *)
#[warnings="-register-all"]
Inductive json :=
| JNull
| JBool (b : bool)
| JNumber (q : Q)   (* a number, read as a rational *)
| JString (s : string)
| JArray (items : list json)
| JObject (members : list (string * json)).

(** What [open(fileName)] and [json.loads(file.read())] come to:
    [FileNotFoundError], any other exception, or the value read. *)
Inductive file :=
| FileNotFound
| Unreadable
| Loaded (loadedJSON : json).

(** The lines printed: "Configuration file not found", "Error while loading
    file: ...", "No websites found in the configuration file" and "Error
    during configuration of website". *)
Inductive message :=
| file_not_found
| loading_error
| no_websites
| website_error.

(** [d.get(k)] and [d[k]] on a dictionary read from an object: the value of
    the last member named [k]. *)
Fixpoint get (k : string) (members : list (string * json)) : option json :=
  match members with
  | [] => None
  | (k', v) :: rest =>
      match get k rest with
      | Some v' => Some v'
      | None => if String.eqb k' k then Some v else None
      end
  end.

(** The keys of a dictionary read from an object, each once, in the order
    in which they first occur. *)
Fixpoint keys (members : list (string * json)) : list string :=
  match members with
  | [] => []
  | (k, _) :: rest => k :: filter (fun k' => k' <> k) (keys rest)
  end.

(** The characters of a string, as [for c in s] yields them. *)
Fixpoint chars (s : string) : list string :=
  match s with
  | EmptyString => []
  | String a s' => String a EmptyString :: chars s'
  end.

(** [for website in websites]: what is iterated, [None] when the value is
    not iterable (a number, a boolean, null). *)
Definition iter (websites : json) : option (list json) :=
  match websites with
  | JArray items => Some items
  | JObject members => Some (JString <$> keys members)
  | JString s => Some (JString <$> chars s)
  | JNull | JBool _ | JNumber _ => None
  end.

(** Lists and dictionaries cannot be keys of a dictionary. *)
Definition hashable (j : json) : bool :=
  match j with
  | JArray _ | JObject _ => false
  | _ => true
  end.

(** The number a key is equal to: [True == 1] and [False == 0]. *)
Definition number_of (j : json) : option Q :=
  match j with
  | JNumber q => Some q
  | JBool b => Some (if b then 1 else 0)%Q
  | _ => None
  end.

(** [a == b] on two keys. *)
Definition key_eq (a b : json) : bool :=
  match a, b with
  | JNull, JNull => true
  | JString s, JString s' => String.eqb s s'
  | _, _ =>
      match number_of a, number_of b with
      | Some x, Some y => Qeq_bool x y
      | _, _ => false
      end
  end.

(** [res[k] = v] on a dictionary kept as its items in insertion order: the
    value of an equal key is replaced, a new key goes to the end. *)
Fixpoint setitem (res : list (json * json)) (k v : json) : list (json * json) :=
  match res with
  | [] => [(k, v)]
  | (k', v') :: rest =>
      if key_eq k' k then (k', v) :: rest else (k', v') :: setitem rest k v
  end.

(** [res[website['URL']] = website.get("checkInterval", defaultCheckInterval)];
    [None] when the statement raises. *)
Definition configure (defaultCheckInterval : json) (res : list (json * json))
    (website : json) : option (list (json * json)) :=
  match website with
  | JObject members =>
      let checkInterval :=
        default defaultCheckInterval (get "checkInterval" members) in
      match get "URL" members with
      | Some url =>
          if hashable url then Some (setitem res url checkInterval) else None
      | None => None
      end
  | _ => None
  end.

(** One pass of the loop over the websites, with its [try] and [except]. *)
Definition step (defaultCheckInterval : json)
    (state : list message * list (json * json)) (website : json)
    : list message * list (json * json) :=
  match configure defaultCheckInterval state.2 website with
  | Some res => (state.1, res)
  | None => ((state.1 ++ [website_error])%list, state.2)
  end.

(** [App.__loadJSONConfig]: the lines printed and the value returned,
    [None] or the dictionary from website to check interval. *)
Definition loadJSONConfig (f : file)
    : list message * option (list (json * json)) :=
  match f with
  | FileNotFound => ([file_not_found], None)
  | Unreadable => ([loading_error], None)
  | Loaded (JObject members) =>
      let defaultCheckInterval :=
        default (JNumber 2) (get "defaultCheckInterval" members) in
      let '(out, websites) :=
        match get "websites" members with
        | Some websites => ([], websites)
        | None => ([no_websites], JArray [])
        end in
      match iter websites with
      | Some items =>
          let state := foldl (step defaultCheckInterval) (out, []) items in
          (state.1, Some state.2)
      | None => ((out ++ [loading_error])%list, None)
      end
  | Loaded _ => ([loading_error], None)
  end.

(** [res[k]] as a lookup: the value of the key equal to [k]. *)
Fixpoint getitem (res : list (json * json)) (k : json) : option json :=
  match res with
  | [] => None
  | (k', v) :: rest => if key_eq k' k then Some v else getitem rest k
  end.

(** The key and the value that a website gives, when it gives one: an
    object with a hashable "URL". *)
Definition entry (defaultCheckInterval : json) (website : json)
    : option (json * json) :=
  match website with
  | JObject members =>
      match get "URL" members with
      | Some url =>
          if hashable url
          then Some (url, default defaultCheckInterval (get "checkInterval" members))
          else None
      | None => None
      end
  | _ => None
  end.

(** The value of the last website whose key is equal to [k]. *)
Definition last_entry (defaultCheckInterval : json) (items : list json)
    (k : json) : option json :=
  last (omap (fun website =>
                match entry defaultCheckInterval website with
                | Some (url, checkInterval) =>
                    if key_eq url k then Some checkInterval else None
                | None => None
                end) items).

(** Keys that are pairwise different. *)
Fixpoint distinct (ks : list json) : Prop :=
  match ks with
  | [] => True
  | k :: rest => Forall (fun k' => key_eq k k' = false) rest /\ distinct rest
  end.

(** A configuration with a default and three websites: one with its own
    interval, one without, one without URL. *)
Definition example : json :=
  JObject [ ("websites",
             JArray [ JObject [ ("URL", JString "http://a.example");
                                ("checkInterval", JNumber 5) ];
                      JObject [ ("URL", JString "http://b.example") ];
                      JObject [ ("checkInterval", JNumber 1) ] ]);
            ("defaultCheckInterval", JNumber 3) ].

End Config.

(** * Properties *)

(** ** Counters count *)

Section CounterFacts.
Context {K : Type} `{Countable K}.
Implicit Types (c : gmap K nat) (k : K) (l : list K).

Lemma total_empty : Counter.total (∅ : gmap K nat) = 0.
Proof. unfold Counter.total. apply map_fold_empty. Qed.

Lemma total_insert_fresh c k v :
  c !! k = None -> Counter.total (<[k := v]> c) = v + Counter.total c.
Proof.
  intros Hk. unfold Counter.total.
  rewrite map_fold_insert_L; [reflexivity | intros; lia | exact Hk].
Qed.

Lemma total_incr c k : Counter.total (Counter.incr c k) = S (Counter.total c).
Proof.
  unfold Counter.incr. destruct (c !! k) as [v|] eqn:Hk; simpl.
  - rewrite <- (insert_delete_eq c k (S v)).
    rewrite total_insert_fresh by apply lookup_delete_eq.
    rewrite <- (insert_delete_id c k v Hk) at 2.
    rewrite total_insert_fresh by apply lookup_delete_eq. lia.
  - now rewrite total_insert_fresh.
Qed.

Lemma total_foldl l c :
  Counter.total (foldl Counter.incr c l) = Counter.total c + length l.
Proof.
  revert c. induction l as [|k l IH]; intros c; simpl.
  - lia.
  - rewrite IH, total_incr. lia.
Qed.

(** [sum(Counter(l).values())] is [len(l)]. *)
Lemma total_of_list l : Counter.total (Counter.of_list l) = length l.
Proof. unfold Counter.of_list. now rewrite total_foldl, total_empty. Qed.

Lemma get_incr c k j :
  Counter.get (Counter.incr c k) j
  = (if decide (k = j) then 1 else 0) + Counter.get c j.
Proof.
  unfold Counter.get, Counter.incr. destruct (decide (k = j)) as [->|Hne].
  - now rewrite lookup_insert_eq.
  - now rewrite lookup_insert_ne.
Qed.

Lemma get_foldl l c j :
  Counter.get (foldl Counter.incr c l) j
  = Counter.get c j + length (filter (fun k => k = j) l).
Proof.
  revert c. induction l as [|k l IH]; intros c; simpl.
  - lia.
  - rewrite IH, get_incr, filter_cons.
    destruct (decide (k = j)); simpl; lia.
Qed.

(** [Counter(l)[j]] is the number of occurrences of [j] in [l]. *)
Lemma get_of_list l j :
  Counter.get (Counter.of_list l) j = length (filter (fun k => k = j) l).
Proof.
  unfold Counter.of_list. rewrite get_foldl.
  unfold Counter.get. now rewrite lookup_empty.
Qed.
End CounterFacts.

(** ** [getStats] *)

Lemma length_availables values : length (omap available values) = present values.
Proof.
  unfold present. induction values as [|r values IH]; [reflexivity|].
  rewrite filter_cons. cbn [omap list_omap].
  destruct (available r) as [b|]; case_decide as Hd; simpl.
  - f_equal. exact IH.
  - exfalso. apply Hd. eauto.
  - destruct Hd as [x Hx]. discriminate.
  - exact IH.
Qed.

Lemma length_availables_true values :
  length (filter (fun b => b = true) (omap available values)) = healthy values.
Proof.
  unfold healthy. induction values as [|r values IH]; [reflexivity|].
  rewrite (filter_cons (fun r => available r = Some true)). cbn [omap list_omap].
  destruct (available r) as [[|]|]; case_decide as Hd; try congruence;
    try rewrite filter_cons; try case_decide; try congruence; simpl.
  all: first [exact IH | f_equal; exact IH].
Qed.

Lemma healthy_le_present values : healthy values <= present values.
Proof.
  rewrite <- length_availables_true, <- length_availables. apply length_filter.
Qed.

(** [getStats] on a series: the division of the two counts. *)
Lemma stats_of_series values :
  stats_of (Some values)
  = (a ← truediv (healthy values) (present values);
     Ok (true, StatsOf {| availability := a;
                          statusCodes := Counter.of_list (map status values);
                          avgRT := match divide (sum (omap responseTime values))
                                           (length (omap responseTime values)) with
                                   | Ok q => Fin q
                                   | Raise _ => Inf
                                   end;
                          minRT := py_min (omap responseTime values) Inf;
                          maxRT := py_max (omap responseTime values) Inf |})).
Proof.
  unfold stats_of.
  now rewrite total_of_list, get_of_list, length_availables, length_availables_true.
Qed.

Lemma truediv_Ok a b q :
  truediv a b = Ok q <-> 0 < b /\ q = Z.of_nat a # Pos.of_nat b.
Proof.
  unfold truediv. destruct b; split.
  - discriminate.
  - intros [? _]; lia.
  - intros [= <-]. split; [lia | reflexivity].
  - intros [_ ->]. reflexivity.
Qed.

Lemma truediv_unit_interval a b q :
  a <= b -> truediv a b = Ok q -> (0 <= q <= 1)%Q.
Proof.
  intros Hab [Hb ->]%truediv_Ok. unfold Qle; simpl. split; [lia|].
  rewrite Z.mul_1_r, Z.mul_1_l.
  replace (Z.pos (Pos.of_nat b)) with (Z.of_nat b); [lia|].
  destruct b; [lia|]. now rewrite <- Znat.positive_nat_Z, Nat2Pos.id.
Qed.

Lemma adds_absent_availables l l' :
  adds_absent l l' -> omap available l' = omap available l.
Proof.
  induction 1 as [|r l l' _ IH|r l l' Hr _ IH]; simpl.
  - reflexivity.
  - destruct (available r); [f_equal|]; exact IH.
  - rewrite Hr. exact IH.
Qed.

Lemma adds_absent_counts l l' :
  adds_absent l l' -> healthy l' = healthy l /\ present l' = present l.
Proof.
  intros Hl. rewrite <- !length_availables_true, <- !length_availables.
  now rewrite (adds_absent_availables _ _ Hl).
Qed.

Lemma getStats_unfold self c minutes :
  getStats self c minutes = stats_of (query_stats c minutes (URL self)).
Proof. reflexivity. Qed.

(** Without a series the answer is [(False, {})], and only then. *)
Lemma getStats_not_found self c minutes d :
  getStats self c minutes = Ok (false, d)
  <-> query_stats c minutes (URL self) = None /\ d = EmptyDict.
Proof.
  rewrite getStats_unfold. destruct (query_stats c minutes (URL self)) as [values|].
  - rewrite stats_of_series. split.
    + destruct (truediv (healthy values) (present values)); discriminate.
    + intros [? _]. discriminate.
  - simpl. split; [intros [= <-] | intros [_ ->]]; auto.
Qed.

(** A series with a record of present availability gives a full snapshot. *)
Lemma getStats_found self c minutes values :
  query_stats c minutes (URL self) = Some values ->
  0 < present values ->
  exists s, getStats self c minutes = Ok (true, StatsOf s)
            /\ availability s = Z.of_nat (healthy values) # Pos.of_nat (present values).
Proof.
  intros Hq Hp. rewrite getStats_unfold, Hq, stats_of_series.
  destruct (truediv (healthy values) (present values)) as [a|e] eqn:Hd.
  - eexists. split; [reflexivity|]. simpl. now apply truediv_Ok in Hd.
  - unfold truediv in Hd. destruct (present values); [lia | discriminate].
Qed.

(** C2, on the code: when the series holds no record of present
    availability, the denominator of the availability is zero and
    [getStats] raises [ZeroDivisionError]; it does not answer "no data". *)
Theorem getStats_zero_denominator self c minutes values :
  query_stats c minutes (URL self) = Some values ->
  present values = 0 ->
  getStats self c minutes = Raise ZeroDivisionError.
Proof.
  intros Hq Hp. rewrite getStats_unfold, Hq, stats_of_series, Hp. reflexivity.
Qed.

Lemma getStats_zero_denominator_witness :
  query_stats (Sample.store (Some Sample.unknown)) 2 (URL Sample.site)
    = Some Sample.unknown
  /\ present Sample.unknown = 0
  /\ getStats Sample.site (Sample.store (Some Sample.unknown)) 2
     = Raise ZeroDivisionError.
Proof.
  split; [reflexivity | split; [reflexivity|]].
  apply (getStats_zero_denominator Sample.site
           (Sample.store (Some Sample.unknown)) 2 Sample.unknown);
    reflexivity.
Defined.

(** C4, on the code: without a series [getStats] returns [(False, {})],
    but on a window whose only record has an absent availability it raises
    [ZeroDivisionError] where the claim has [found = true]. *)
Theorem getStats_record_without_found :
  getStats Sample.site (Sample.store None) 2 = Ok (false, EmptyDict)
  /\ length Sample.unknown = 1
  /\ getStats Sample.site (Sample.store (Some Sample.unknown)) 2
     = Raise ZeroDivisionError.
Proof. repeat split; vm_compute; reflexivity. Qed.

(** C5: a snapshot's availability is the number of records with
    availability [True] over the number of records with a present
    availability, lies between 0 and 1, and stays the same when records of
    absent availability are added to the window. *)
Theorem getStats_availability self c minutes found s :
  getStats self c minutes = Ok (found, StatsOf s) ->
  exists values,
    query_stats c minutes (URL self) = Some values
    /\ 0 < present values
    /\ availability s = Z.of_nat (healthy values) # Pos.of_nat (present values)
    /\ (0 <= availability s <= 1)%Q
    /\ forall c' values',
         query_stats c' minutes (URL self) = Some values' ->
         adds_absent values values' ->
         exists s', getStats self c' minutes = Ok (true, StatsOf s')
                    /\ availability s' = availability s.
Proof.
  rewrite getStats_unfold.
  destruct (query_stats c minutes (URL self)) as [values|]; [|discriminate].
  rewrite stats_of_series.
  destruct (truediv (healthy values) (present values)) as [a|e] eqn:Hd;
    [|discriminate].
  intros [= _ <-]. simpl. exists values.
  pose proof (truediv_unit_interval _ _ _ (healthy_le_present values) Hd) as Hu.
  apply truediv_Ok in Hd as [Hp Ha].
  repeat split; try tauto.
  intros c' values' Hq' Hadd.
  destruct (adds_absent_counts _ _ Hadd) as [Hh' Hp'].
  destruct (getStats_found self c' minutes values' Hq') as (s' & Hs' & Ha');
    [lia|].
  exists s'. split; [exact Hs'|]. rewrite Ha', Hh', Hp'. now symmetry.
Qed.

Lemma getStats_availability_witness :
  getStats Sample.site (Sample.store (Some Sample.mixed)) 10
    = Ok (true, StatsOf Sample.mixed_stats)
  /\ exists values,
       query_stats (Sample.store (Some Sample.mixed)) 10 (URL Sample.site)
         = Some values
       /\ 0 < present values
       /\ availability Sample.mixed_stats
          = Z.of_nat (healthy values) # Pos.of_nat (present values)
       /\ (0 <= availability Sample.mixed_stats <= 1)%Q
       /\ forall c' values',
            query_stats c' 10 (URL Sample.site) = Some values' ->
            adds_absent values values' ->
            exists s', getStats Sample.site c' 10 = Ok (true, StatsOf s')
                       /\ availability s' = availability Sample.mixed_stats.
Proof.
  split; [vm_compute; reflexivity|].
  apply (getStats_availability Sample.site (Sample.store (Some Sample.mixed))
           10 true Sample.mixed_stats).
  vm_compute; reflexivity.
Defined.

(** C7: when a record of the window has a present availability and every
    response time is absent, [getStats] returns [found = True] and a
    snapshot whose minRT, maxRT and avgRT are all [float('inf')]. *)
Theorem getStats_no_response_time self c minutes values :
  query_stats c minutes (URL self) = Some values ->
  (exists r, r ∈ values /\ is_Some (available r)) ->
  (forall r, r ∈ values -> responseTime r = None) ->
  exists s,
    getStats self c minutes = Ok (true, StatsOf s)
    /\ minRT s = Inf /\ maxRT s = Inf /\ avgRT s = Inf.
Proof.
  intros Hq (r & Hr & Ha) Hrt.
  assert (Hnone : omap responseTime values = []).
  { clear Hq Hr Ha. induction values as [|x values IH]; [reflexivity|].
    cbn [omap list_omap]. rewrite (Hrt x) by apply list_elem_of_here.
    apply IH. intros y Hy. apply Hrt. now apply list_elem_of_further. }
  assert (Hp : 0 < present values).
  { unfold present.
    assert (Hin : r ∈ filter (fun r => is_Some (available r)) values)
      by (apply list_elem_of_filter; auto).
    destruct (filter _ values); [inversion Hin | simpl; lia]. }
  rewrite getStats_unfold, Hq, stats_of_series.
  destruct (truediv (healthy values) (present values)) as [a|e] eqn:Hd.
  - eexists. split; [reflexivity|]. simpl. rewrite Hnone. auto.
  - unfold truediv in Hd. destruct (present values); [lia | discriminate].
Qed.

Lemma getStats_no_response_time_witness :
  exists s,
    getStats Sample.site (Sample.store (Some Sample.silent)) 2
      = Ok (true, StatsOf s)
    /\ minRT s = Inf /\ maxRT s = Inf /\ avgRT s = Inf.
Proof.
  apply (getStats_no_response_time Sample.site
           (Sample.store (Some Sample.silent)) 2 Sample.silent).
  - reflexivity.
  - exists (Sample.row (Some true) (Some 200%Z) None).
    split; [apply list_elem_of_here | eexists; reflexivity].
  - intros r Hr. unfold Sample.silent in Hr.
    apply elem_of_cons in Hr as [->|Hr]; [reflexivity|].
    apply elem_of_cons in Hr as [->|Hr]; [reflexivity|].
    inversion Hr.
Defined.

(** ** [checkAlert] *)

Lemma lt_ge a b : lt a b = negb (ge a b).
Proof. unfold lt, ge. now destruct (a ?= b)%Q. Qed.

Lemma lt_spec a b : lt a b = true <-> (a < b)%Q.
Proof.
  unfold lt. rewrite Qlt_alt. destruct (a ?= b)%Q; split; congruence.
Qed.

Lemma ge_spec a b : ge a b = true <-> (b <= a)%Q.
Proof.
  unfold ge. rewrite Qle_alt, <- Qgt_alt, Qlt_alt.
  destruct (a ?= b)%Q; split; congruence.
Qed.

Lemma count_true_seconds (values : list AlertRow) :
  length (filter (fun k => k = Some true) (map snd values))
  = length (filter (fun row => row.2 = Some true) values).
Proof.
  induction values as [|row values IH]; [reflexivity|].
  cbn [map]. rewrite !filter_cons.
  destruct (decide (row.2 = Some true)); simpl; now rewrite IH.
Qed.

(** The ratio of [checkAlert] on a series: every row is in the denominator. *)
Lemma alert_ratio_series (values : list AlertRow) :
  alert_ratio (Some values)
  = truediv (length (filter (fun row => row.2 = Some true) values)) (length values).
Proof.
  unfold alert_ratio. simpl.
  now rewrite total_of_list, get_of_list, count_true_seconds, length_map.
Qed.

(** An exception leaves the retriever as it was and writes nothing. *)
Lemma checkAlert_raise self c t e :
  alert_ratio (query_available c (URL self)) = Raise e ->
  checkAlert self c t = (self, [], Raise e).
Proof. intros Hr. unfold checkAlert. now rewrite Hr. Qed.

(** The four rows of the transition table. *)
Lemma checkAlert_recovery self c t a :
  alert_ratio (query_available c (URL self)) = Ok a ->
  Alerting self -> ge a threshold = true ->
  checkAlert self c t
  = ({| URL := URL self;
        alertData := {| alertStatus := false;
                        alertNumber := alertNumber (alertData self);
                        alertTime := alertTime (alertData self) |} |},
     [alert_event "recovery" self t a],
     Ok (Notify "recovery" (URL self) a t (pretty (alertNumber (alertData self))))).
Proof.
  unfold Alerting, checkAlert. intros -> -> ->. reflexivity.
Qed.

Lemma checkAlert_ongoing self c t a :
  alert_ratio (query_available c (URL self)) = Ok a ->
  Alerting self -> lt a threshold = true ->
  checkAlert self c t
  = (self, [],
     Ok (Notify "alert" (URL self) a (alertTime (alertData self))
           (pretty (alertNumber (alertData self))))).
Proof.
  unfold Alerting, checkAlert. rewrite lt_ge. intros -> -> Hge.
  destruct (ge a threshold); [discriminate | reflexivity].
Qed.

Lemma checkAlert_alert self c t a :
  alert_ratio (query_available c (URL self)) = Ok a ->
  Healthy self -> lt a threshold = true ->
  checkAlert self c t
  = ({| URL := URL self;
        alertData := {| alertStatus := true;
                        alertNumber := alertNumber (alertData self) + 1;
                        alertTime := t |} |},
     [alert_event "alert" self t a],
     Ok (Notify "alert" (URL self) a t
           (pretty (alertNumber (alertData self) + 1)))).
Proof.
  unfold Healthy, checkAlert. intros -> -> ->. reflexivity.
Qed.

Lemma checkAlert_healthy self c t a :
  alert_ratio (query_available c (URL self)) = Ok a ->
  Healthy self -> ge a threshold = true ->
  checkAlert self c t = (self, [], Ok NoNotification).
Proof.
  unfold Healthy, checkAlert. intros -> -> Hge. simpl.
  now rewrite lt_ge, Hge.
Qed.

Lemma checkAlert_outcome self c t : outcome self c t.
Proof.
  destruct (alert_ratio (query_available c (URL self))) as [a|e] eqn:Hr.
  - destruct (alertStatus (alertData self)) eqn:Hs;
      destruct (ge a threshold) eqn:Hge.
    + eapply out_recovery; eauto; unfold after, written;
        rewrite (checkAlert_recovery self c t a); done.
    + assert (Hlt : lt a threshold = true) by now rewrite lt_ge, Hge.
      eapply out_ongoing; eauto; unfold after, written;
        rewrite (checkAlert_ongoing self c t a); done.
    + eapply out_healthy; eauto; unfold after, written;
        rewrite (checkAlert_healthy self c t a); done.
    + assert (Hlt : lt a threshold = true) by now rewrite lt_ge, Hge.
      eapply out_alert; eauto; unfold after, written;
        rewrite (checkAlert_alert self c t a); done.
  - eapply out_raise; eauto; unfold after, written;
      rewrite (checkAlert_raise self c t e); done.
Qed.

Ltac outcomes self c t :=
  destruct (checkAlert_outcome self c t);
  unfold Healthy, Alerting in *;
  repeat match goal with
         | H : after self c t = self |- _ => rewrite H in *
         end.

Lemma alertNumber_step self c t :
  alertNumber (alertData (after self c t))
  = alertNumber (alertData self)
    + (if negb (alertStatus (alertData self))
          && alertStatus (alertData (after self c t)) then 1 else 0).
Proof.
  outcomes self c t;
    repeat match goal with
           | H : alertStatus _ = _ |- _ => rewrite H
           | H : alertNumber _ = _ |- _ => rewrite H
           end; simpl; try lia.
  destruct (alertStatus (alertData self)); simpl; lia.
Qed.

Lemma alertNumber_checks self calls :
  alertNumber (alertData (checks self calls))
  = alertNumber (alertData self) + raised self calls.
Proof.
  revert self. induction calls as [|[c t] calls IH]; intros self; simpl.
  - lia.
  - rewrite IH, alertNumber_step. lia.
Qed.

(** C1: the alert number of a retriever starts at 0, never decreases over
    successive calls of [checkAlert], grows by exactly 1 on each call that
    takes the retriever from healthy to alerting (so that it counts these
    calls), and is left as it is by a recovery, by a call that keeps the
    status, and by a second call in a row with a ratio below 0.8. *)
Theorem alertNumber_sequence url now self calls c t c' t' :
  alertNumber (alertData (init url now)) = 0
  /\ alertNumber (alertData self) <= alertNumber (alertData (after self c t))
  /\ alertNumber (alertData self) <= alertNumber (alertData (checks self calls))
  /\ alertNumber (alertData (checks self calls))
     = alertNumber (alertData self) + raised self calls
  /\ (Healthy self -> Alerting (after self c t) ->
      alertNumber (alertData (after self c t)) = alertNumber (alertData self) + 1)
  /\ (Alerting self -> Healthy (after self c t) ->
      alertNumber (alertData (after self c t)) = alertNumber (alertData self))
  /\ (alertStatus (alertData (after self c t)) = alertStatus (alertData self) ->
      alertNumber (alertData (after self c t)) = alertNumber (alertData self))
  /\ (forall a a',
        alert_ratio (query_available c (URL self)) = Ok a ->
        (a < threshold)%Q ->
        alert_ratio (query_available c' (URL (after self c t))) = Ok a' ->
        (a' < threshold)%Q ->
        Alerting (after self c t)
        /\ Alerting (after (after self c t) c' t')
        /\ alertNumber (alertData (after (after self c t) c' t'))
           = alertNumber (alertData (after self c t))).
Proof.
  split; [reflexivity|].
  split; [rewrite alertNumber_step; lia|].
  split; [rewrite alertNumber_checks; lia|].
  split; [apply alertNumber_checks|].
  unfold Healthy, Alerting.
  split; [intros Hh Ha; rewrite alertNumber_step, Hh, Ha; simpl; lia|].
  split; [intros Ha Hh; rewrite alertNumber_step, Hh, Ha; simpl; lia|].
  split.
  { intros Hs. rewrite alertNumber_step, Hs.
    destruct (alertStatus (alertData self)); simpl; lia. }
  intros a a' Hr Ha Hr' Ha'.
  apply lt_spec in Ha, Ha'.
  assert (Hfirst : alertStatus (alertData (after self c t)) = true).
  { destruct (alertStatus (alertData self)) eqn:Hs.
    - unfold after. now rewrite (checkAlert_ongoing self c t a).
    - unfold after. now rewrite (checkAlert_alert self c t a). }
  assert (Hsecond : after (after self c t) c' t' = after self c t).
  { unfold after at 1. now rewrite (checkAlert_ongoing (after self c t) c' t' a'). }
  rewrite Hsecond. auto.
Qed.

Lemma alertNumber_sequence_witness :
  Healthy Sample.site
  /\ Alerting Sample.alerted
  /\ alertNumber (alertData Sample.alerted)
     = alertNumber (alertData Sample.site) + 1.
Proof.
  split; [reflexivity | split; [vm_compute; reflexivity|]].
  apply (alertNumber_sequence (URL Sample.site) 0%Z Sample.site []
           (Sample.store (Some Sample.down)) 60000000%Z
           (Sample.store (Some Sample.down)) 70000000%Z);
    vm_compute; reflexivity.
Defined.

(** C3: [checkAlert] hands a point to the store exactly on a change of
    status: one point of type "alert" when a healthy retriever becomes
    alerting, one point of type "recovery" when an alerting retriever
    becomes healthy, and no point when the status stays (healthy with a
    ratio of 0.8 or more, alerting with a ratio below 0.8). *)
Theorem alert_event_on_transition self c t :
  (Healthy self -> Alerting (after self c t) ->
   exists a, alert_ratio (query_available c (URL self)) = Ok a
             /\ written self c t = [alert_event "alert" self t a])
  /\ (Alerting self -> Healthy (after self c t) ->
      exists a, alert_ratio (query_available c (URL self)) = Ok a
                /\ written self c t = [alert_event "recovery" self t a])
  /\ (alertStatus (alertData (after self c t)) = alertStatus (alertData self) ->
      written self c t = [])
  /\ (forall a, alert_ratio (query_available c (URL self)) = Ok a ->
      Healthy self -> (a < threshold)%Q -> Alerting (after self c t))
  /\ (forall a, alert_ratio (query_available c (URL self)) = Ok a ->
      Alerting self -> (threshold <= a)%Q -> Healthy (after self c t))
  /\ (forall a, alert_ratio (query_available c (URL self)) = Ok a ->
      Healthy self -> (threshold <= a)%Q ->
      Healthy (after self c t) /\ written self c t = [])
  /\ (forall a, alert_ratio (query_available c (URL self)) = Ok a ->
      Alerting self -> (a < threshold)%Q ->
      Alerting (after self c t) /\ written self c t = []).
Proof.
  repeat split.
  - intros Hh Ha. outcomes self c t; try congruence. eauto.
  - intros Ha Hh. outcomes self c t; try congruence. eauto.
  - intros Hs. outcomes self c t; congruence.
  - intros a Hr Hh Ha%lt_spec. unfold after.
    now rewrite (checkAlert_alert self c t a).
  - intros a Hr Ha Hge%ge_spec. unfold after.
    now rewrite (checkAlert_recovery self c t a).
  - match goal with H : (_ <= _)%Q |- _ => apply ge_spec in H end.
    unfold after. now rewrite (checkAlert_healthy self c t a).
  - match goal with H : (_ <= _)%Q |- _ => apply ge_spec in H end.
    unfold written. now rewrite (checkAlert_healthy self c t a).
  - match goal with H : (_ < _)%Q |- _ => apply lt_spec in H end.
    unfold after. now rewrite (checkAlert_ongoing self c t a).
  - match goal with H : (_ < _)%Q |- _ => apply lt_spec in H end.
    unfold written. now rewrite (checkAlert_ongoing self c t a).
Qed.

Lemma alert_event_on_transition_witness :
  Healthy Sample.site
  /\ Alerting (after Sample.site (Sample.store (Some Sample.down)) 60000000)
  /\ exists a,
       alert_ratio (query_available (Sample.store (Some Sample.down))
                      (URL Sample.site)) = Ok a
       /\ written Sample.site (Sample.store (Some Sample.down)) 60000000
          = [alert_event "alert" Sample.site 60000000 a].
Proof.
  split; [reflexivity | split; [vm_compute; reflexivity|]].
  apply (alert_event_on_transition Sample.site
           (Sample.store (Some Sample.down)) 60000000%Z);
    vm_compute; reflexivity.
Defined.

(** C6: when the store reports no series for the 2-minute window,
    [checkAlert] raises ([KeyError]) instead of returning a notification,
    and so it does ([ZeroDivisionError]) on a series without rows; the
    retriever is left as it was and nothing is written. *)
Theorem checkAlert_no_records self c t :
  (query_available c (URL self) = None ->
   checkAlert self c t = (self, [], Raise KeyError))
  /\ (query_available c (URL self) = Some [] ->
      checkAlert self c t = (self, [], Raise ZeroDivisionError))
  /\ (query_available c (URL self) = None
      \/ query_available c (URL self) = Some [] ->
      faults (returned self c t) /\ ~ returns (returned self c t)).
Proof.
  assert (Hnone : query_available c (URL self) = None ->
                  checkAlert self c t = (self, [], Raise KeyError)).
  { intros Hq. apply checkAlert_raise. now rewrite Hq. }
  assert (Hnil : query_available c (URL self) = Some [] ->
                 checkAlert self c t = (self, [], Raise ZeroDivisionError)).
  { intros Hq. apply checkAlert_raise. now rewrite Hq. }
  split; [exact Hnone | split; [exact Hnil|]].
  intros Hq. unfold returned, faults, returns.
  destruct Hq as [Hq|Hq]; [rewrite (Hnone Hq) | rewrite (Hnil Hq)]; simpl.
  - split; [eexists; reflexivity | intros [n Hn]; discriminate].
  - split; [eexists; reflexivity | intros [n Hn]; discriminate].
Qed.

Lemma checkAlert_no_records_witness :
  query_available (Sample.store None) (URL Sample.site) = None
  /\ checkAlert Sample.site (Sample.store None) 60000000
     = (Sample.site, [], Raise KeyError).
Proof.
  split; [reflexivity|].
  apply (checkAlert_no_records Sample.site (Sample.store None) 60000000%Z).
  reflexivity.
Defined.

(** C10: the ratio of [checkAlert] has every returned row in its
    denominator, the rows without availability too; on the same records it
    can be strictly below the availability of [getStats(2)], and raise an
    alert where [getStats] shows an availability of 1. *)
Theorem checkAlert_counts_absent :
  (forall values : list AlertRow,
      alert_ratio (Some values)
      = truediv (length (filter (fun row => row.2 = Some true) values))
                (length values))
  /\ exists records a s,
      alert_ratio (query_available (Sample.store (Some records)) (URL Sample.site))
        = Ok a
      /\ getStats Sample.site (Sample.store (Some records)) 2 = Ok (true, StatsOf s)
      /\ (a < availability s)%Q
      /\ (a < threshold <= availability s)%Q
      /\ returned Sample.site (Sample.store (Some records)) 60000000
         = Ok (Notify "alert" (URL Sample.site) a 60000000 "1").
Proof.
  split; [apply alert_ratio_series|].
  exists Sample.partial, (1 # 2)%Q.
  destruct (getStats_found Sample.site (Sample.store (Some Sample.partial)) 2
              Sample.partial eq_refl) as (s & Hs & Ha).
  { vm_compute. lia. }
  exists s. rewrite Ha.
  repeat split; try (vm_compute; reflexivity); try exact Hs.
  vm_compute. discriminate.
Qed.

(** ** The report task *)

Lemma countdown_next k :
  App.countdown_of_firing (S (S k))
  = (if (App.countdown_of_firing (S k) =? 0)%Z then 5
     else App.countdown_of_firing (S k) - 1)%Z.
Proof.
  change (App.countdown_of_firing (S (S k)))
    with (match (App.rearm 10 (App.countdown_of_firing (S k))).1 with
          | App.printResults_task _ countdown => countdown
          | App.getResults_task _ _ => 0%Z
          end).
  unfold App.rearm. now destruct (App.countdown_of_firing (S k) =? 0)%Z.
Qed.

(** The countdown goes 5, 4, 3, 2, 1, 0 and again. *)
Lemma countdown_cycle k :
  App.countdown_of_firing (S k) = (5 - Z.of_nat k mod 6)%Z.
Proof.
  induction k as [|k IH].
  - reflexivity.
  - rewrite countdown_next, IH, Nat2Z.inj_succ.
    pose proof (Nat2Z.is_nonneg k) as Hk.
    destruct (Z.eqb_spec (5 - Z.of_nat k mod 6) 0) as [He|He];
      Z.div_mod_to_equations; lia.
Qed.

Lemma minuteCheck_countdown k :
  App.minuteCheck_of_firing k = true <-> App.countdown_of_firing k = 0%Z.
Proof.
  unfold App.minuteCheck_of_firing, App.rearm.
  destruct (Z.eqb_spec (App.countdown_of_firing k) 0); simpl; split;
    congruence.
Qed.

Lemma foldl_timers monitors th :
  exists rest,
    App.timers
      (foldl (fun th '(website, checkI) =>
                App.Timer_start checkI (App.getResults_task website checkI) th)
             th monitors)
    = (App.timers th ++ rest)%list.
Proof.
  revert th. induction monitors as [|[website checkI] monitors IH]; intros th.
  - exists []. simpl. now rewrite app_nil_r.
  - simpl. destruct (IH (App.Timer_start checkI
                           (App.getResults_task website checkI) th))
      as [rest Hrest].
    rewrite Hrest. simpl. rewrite <- app_assoc. eauto.
Qed.

(** [run] starts the report task first, 10 seconds ahead and with a
    countdown of 5. *)
Lemma run_report_task monitors start :
  head (App.timers (App.run monitors (App.spawn start)))
  = Some ((start + 10)%Q, App.printResults_task 10 5).
Proof.
  unfold App.run.
  destruct (foldl_timers monitors
              (App.Timer_start 10 (App.printResults_task 10 5) (App.spawn start)))
    as [rest ->].
  reflexivity.
Qed.

Lemma URL_after self c t : URL (after self c t) = URL self.
Proof. outcomes self c t; try reflexivity; unfold after.
  - now rewrite (checkAlert_recovery self c t a).
  - now rewrite (checkAlert_alert self c t a).
Qed.

Lemma report_target_windows c now flag website retriever retriever' points report :
  App.report_target c now flag retriever = (retriever', points, Ok report) ->
  reports_windows c flag (website, retriever) report.
Proof.
  unfold App.report_target, reports_windows. simpl.
  pose proof (URL_after retriever c now) as Hurl. unfold after in Hurl.
  destruct (checkAlert retriever c now) as [[r1 pts] alert]. simpl in Hurl.
  rewrite !getStats_unfold, Hurl.
  intros [= _ _ Hrep]. destruct alert as [alert|]; [simpl in Hrep|discriminate].
  destruct (stats_of (query_stats c 2 (URL retriever))) as [s2|];
    [simpl in Hrep|discriminate].
  destruct (stats_of (query_stats c 10 (URL retriever))) as [s10|];
    [simpl in Hrep|discriminate].
  destruct flag.
  - destruct (stats_of (query_stats c 60 (URL retriever))) as [s60|];
      [simpl in Hrep|discriminate].
    injection Hrep as <-. simpl. auto.
  - injection Hrep as <-. simpl. auto.
Qed.

Lemma report_loop_windows c now flag retrievers retrievers' points reports :
  App.report_loop c now flag retrievers = (retrievers', points, Ok reports) ->
  Forall2 (reports_windows c flag) retrievers reports.
Proof.
  revert retrievers' points reports.
  induction retrievers as [|[website retriever] rest IH];
    intros retrievers' points reports; simpl.
  - intros [= _ _ <-]. constructor.
  - destruct (App.report_target c now flag retriever) as [[r1 pts] [report|e]] eqn:Ht;
      [|discriminate].
    destruct (App.report_loop c now flag rest) as [[rest' pts'] [reports'|e]];
      simpl; [|discriminate].
    intros [= _ _ <-]. constructor.
    + eapply report_target_windows, Ht.
    + eapply IH. reflexivity.
Qed.

(** C8, as the code has it: the report task computes the 60-minute
    statistics on every sixth firing.  The countdown starts at 5, the first
    five firings count it down to 0 without the long window, the sixth
    computes the long window and sets the countdown to 5 again.  A firing
    whose loop ends without an exception has computed the 2- and the
    10-minute statistics of every website, and the 60-minute statistics
    exactly when its countdown was 0; it starts the timer of the next firing
    before the loop. *)
Theorem report_long_window_every_sixth
    monitors start k retrievers printInterval countdown c now th reports :
  head (App.timers (App.run monitors (App.spawn start)))
  = Some ((start + 10)%Q, App.printResults_task 10 5)
  /\ (1 <= k -> (App.minuteCheck_of_firing k = true <-> k mod 6 = 0))
  /\ (App.printResults retrievers printInterval countdown c now th).1.2
     = (countdown =? 0)%Z
  /\ App.timers (App.printResults retrievers printInterval countdown c now th).1.1
     = (App.timers th
        ++ [((App.clock th + printInterval)%Q,
             App.printResults_task printInterval
               (if (countdown =? 0)%Z then 5 else countdown - 1)%Z)])%list
  /\ ((App.printResults retrievers printInterval countdown c now th).2.2
      = Ok reports ->
      Forall2 (reports_windows c (countdown =? 0)%Z) retrievers reports).
Proof.
  split; [apply run_report_task|].
  split.
  { intros Hk. destruct k as [|k]; [lia|].
    rewrite minuteCheck_countdown, countdown_cycle.
    pose proof (Nat2Z.inj_mod (S k) 6) as Hm.
    rewrite Nat2Z.inj_succ in Hm.
    pose proof (Nat2Z.is_nonneg k) as Hk0.
    split; intros Hz; Z.div_mod_to_equations; lia. }
  unfold App.printResults, App.rearm.
  destruct (countdown =? 0)%Z; simpl; (split; [reflexivity|]);
    (split; [reflexivity|]); intros Hloop.
  - destruct (App.report_loop c now true retrievers) as [[rs pts] res] eqn:Hl.
    simpl in Hloop. subst res. eapply report_loop_windows, Hl.
  - destruct (App.report_loop c now false retrievers) as [[rs pts] res] eqn:Hl.
    simpl in Hloop. subst res. eapply report_loop_windows, Hl.
Qed.

Lemma report_long_window_every_sixth_witness :
  1 <= 6
  /\ (App.minuteCheck_of_firing 6 = true <-> 6 mod 6 = 0)
  /\ (App.printResults Sample.websites 10 0 (Sample.store (Some Sample.up))
        60000000 (App.spawn 0)).2.2 = Ok Sample.reports
  /\ Forall2 (reports_windows (Sample.store (Some Sample.up)) (0 =? 0)%Z)
       Sample.websites Sample.reports.
Proof.
  destruct (report_long_window_every_sixth [] 0 6 Sample.websites 10 0
              (Sample.store (Some Sample.up)) 60000000%Z (App.spawn 0)
              Sample.reports) as (_ & Hcadence & _ & _ & Hloop).
  split; [lia|]. split; [apply Hcadence; lia|].
  split; [vm_compute; reflexivity|].
  apply Hloop. vm_compute; reflexivity.
Defined.

(** C8 as it is stated fails: of the first twelve firings only the sixth
    and the twelfth compute the 60-minute statistics; the fifth and the
    tenth do not, and no firing among the first five does. *)
Lemma report_not_every_fifth :
  map App.minuteCheck_of_firing (seq 1 12)
  = [false; false; false; false; false; true;
     false; false; false; false; false; true]
  /\ App.minuteCheck_of_firing 5 = false
  /\ App.minuteCheck_of_firing 6 = true
  /\ App.minuteCheck_of_firing 10 = false
  /\ ~ (forall k, 1 <= k ->
                  (App.minuteCheck_of_firing k = true <-> k mod 5 = 0)).
Proof.
  repeat split; try (vm_compute; reflexivity).
  intros Hfifth. destruct (Hfifth 5) as [_ H5]; [lia|].
  specialize (H5 eq_refl). vm_compute in H5. discriminate.
Qed.

(** ** The probe task *)

Lemma probe_firings_cons start monitor checkInterval d ds :
  App.probe_firings start monitor checkInterval (d :: ds)
  = App.getResults monitor checkInterval d (App.spawn start)
    :: App.probe_firings (start + checkInterval)%Q monitor checkInterval ds.
Proof. reflexivity. Qed.

(** The firings of a probe task start on the grid of its interval, whatever
    the probes take. *)
Lemma probe_firings_grid start monitor checkInterval durations :
  map fst (probe_spans (App.probe_firings start monitor checkInterval durations))
  = grid start checkInterval (length durations).
Proof.
  revert start. induction durations as [|d ds IH]; intros start.
  - reflexivity.
  - rewrite probe_firings_cons. unfold probe_spans in *.
    cbn [flat_map]. simpl. f_equal. apply IH.
Qed.

(** C9, as the code has it: a firing of the probe task starts the timer of
    its next firing and then runs exactly one probe of its target; the next
    firing is due [checkInterval] seconds after this firing has started,
    not after its probe has ended, so the probes start on a fixed grid, and
    a probe that takes longer than [checkInterval] is still running when
    the next instance starts. *)
Theorem getResults_rearms_at_start start monitor checkInterval duration next durations :
  let th := App.getResults monitor checkInterval duration (App.spawn start) in
  App.probes th = [(monitor, start, (start + duration)%Q)]
  /\ App.timers th
     = [((start + checkInterval)%Q, App.getResults_task monitor checkInterval)]
  /\ map fst (probe_spans (App.probe_firings start monitor checkInterval durations))
     = grid start checkInterval (length durations)
  /\ (sequential
        (probe_spans (App.probe_firings start monitor checkInterval [duration; next]))
      <-> (duration <= checkInterval)%Q).
Proof.
  simpl. split; [reflexivity|]. split; [reflexivity|].
  split; [apply probe_firings_grid|].
  rewrite Qplus_le_r. tauto.
Qed.

(** C9 as it is stated fails: with an interval of 2 seconds and a probe
    that takes 3, the next firing is due at second 2, not 2 seconds after
    the probe has ended, and its probe starts while the first is running. *)
Lemma getResults_not_after_completion :
  App.probe_firings 0 "http://example.org" 2 [3; 1]%Q
  = [ {| App.clock := 3;
         App.timers := [(2%Q, App.getResults_task "http://example.org" 2)];
         App.probes := [("http://example.org", 0%Q, 3%Q)] |};
      {| App.clock := 3;
         App.timers := [(4%Q, App.getResults_task "http://example.org" 2)];
         App.probes := [("http://example.org", 2%Q, 3%Q)] |} ]
  /\ ~ rearms_after_completion
        (App.getResults "http://example.org" 2 3 (App.spawn 0)) 2
  /\ ~ sequential
        (probe_spans (App.probe_firings 0 "http://example.org" 2 [3; 1]%Q)).
Proof.
  split; [vm_compute; reflexivity|]. split.
  - intros Hall. inversion Hall as [|timer rest Hfire _]; subst.
    vm_compute in Hfire. discriminate.
  - simpl. intros [Hle _]. vm_compute in Hle. apply Hle. reflexivity.
Qed.

(** ** Further properties of [getStats] *)

Lemma length_with_status k values :
  length (filter (fun x => x = k) (map status values)) = with_status k values.
Proof.
  unfold with_status. induction values as [|r values IH]; [reflexivity|].
  cbn [map]. rewrite !filter_cons.
  destruct (decide (status r = k)); simpl; now rewrite IH.
Qed.

Section CounterKeys.
Context {K : Type} `{Countable K}.

Lemma lookup_foldl_incr (l : list K) (c : gmap K nat) (j : K) :
  foldl Counter.incr c l !! j
  = match length (filter (fun k => k = j) l) with
    | 0 => c !! j
    | S n => Some (Counter.get c j + S n)
    end.
Proof.
  revert c. induction l as [|k l IH]; intros c; [reflexivity|].
  cbn [foldl]. rewrite IH, filter_cons, get_incr. unfold Counter.incr.
  destruct (decide (k = j)) as [->|Hne]; simpl.
  - rewrite lookup_insert_eq.
    destruct (length (filter (fun k => k = j) l)); f_equal; unfold Counter.get; lia.
  - rewrite lookup_insert_ne by exact Hne.
    destruct (length (filter (fun k => k = j) l)); reflexivity.
Qed.

(** A counter has a key for what occurs in the list, and for nothing else. *)
Lemma lookup_of_list (l : list K) (j : K) :
  Counter.of_list l !! j
  = match length (filter (fun k => k = j) l) with
    | 0 => None
    | S n => Some (S n)
    end.
Proof.
  unfold Counter.of_list. rewrite lookup_foldl_incr.
  unfold Counter.get. rewrite lookup_empty. reflexivity.
Qed.
End CounterKeys.

(** X1: the status codes of a snapshot count every record of the window,
    those without availability or response time too: the count of a code is
    the number of records with it (of records without a code for [None]),
    codes that do not occur have no key, and the counts add up to the
    number of records. *)
Theorem getStats_statusCodes self c minutes values found s :
  query_stats c minutes (URL self) = Some values ->
  getStats self c minutes = Ok (found, StatsOf s) ->
  (forall k, Counter.get (statusCodes s) k = with_status k values)
  /\ (forall k, statusCodes s !! k
               = if decide (with_status k values = 0) then None
                 else Some (with_status k values))
  /\ Counter.total (statusCodes s) = length values.
Proof.
  intros Hq. rewrite getStats_unfold, Hq, stats_of_series.
  destruct (truediv (healthy values) (present values)) as [a|e]; [|discriminate].
  intros [= _ <-]. simpl. repeat split.
  - intros k. now rewrite get_of_list, length_with_status.
  - intros k. rewrite lookup_of_list, length_with_status.
    destruct (with_status k values); reflexivity.
  - now rewrite total_of_list, length_map.
Qed.

Lemma getStats_statusCodes_witness :
  getStats Sample.site (Sample.store (Some Sample.mixed)) 10
    = Ok (true, StatsOf Sample.mixed_stats)
  /\ Counter.get (statusCodes Sample.mixed_stats) (Some 200%Z) = 2
  /\ Counter.total (statusCodes Sample.mixed_stats) = 3.
Proof.
  destruct (getStats_statusCodes Sample.site (Sample.store (Some Sample.mixed))
              10 Sample.mixed true Sample.mixed_stats) as (Hget & _ & Htotal);
    [reflexivity | vm_compute; reflexivity |].
  split; [vm_compute; reflexivity|].
  split; [apply (Hget (Some 200%Z)) | exact Htotal].
Defined.







(** ** [checkAlert] beside [getStats] *)

Lemma trues_alert_view values : trues (map alert_view values) = healthy values.
Proof.
  unfold trues, healthy. induction values as [|r values IH]; [reflexivity|].
  cbn [map]. rewrite !filter_cons. cbn beta.
  change ((alert_view r).2) with (available r).
  destruct (decide (available r = Some true)); simpl;
    first [exact IH | f_equal; exact IH].
Qed.

Lemma alert_ratio_view values :
  alert_ratio (Some (map alert_view values))
  = truediv (healthy values) (length values).
Proof.
  rewrite alert_ratio_series, length_map. f_equal. apply trues_alert_view.
Qed.

Lemma present_le_length values : present values <= length values.
Proof. unfold present. apply length_filter. Qed.

Lemma Zpos_of_nat n : 0 < n -> Z.pos (Pos.of_nat n) = Z.of_nat n.
Proof.
  intros Hn. destruct n; [lia|]. now rewrite <- Znat.positive_nat_Z, Nat2Pos.id.
Qed.

(** X3: when the store shows the same records to both queries, the ratio
    of [checkAlert] is defined whenever [getStats(2)] returns a snapshot and
    is never above its availability; the two are equal when every record
    has an availability, and the ratio is strictly below as soon as a
    record lacks it and a record is up. *)
Theorem checkAlert_ratio_le_availability self c found s :
  query_available c (URL self) = map alert_view <$> query_stats c 2 (URL self) ->
  getStats self c 2 = Ok (found, StatsOf s) ->
  exists values a,
    query_stats c 2 (URL self) = Some values
    /\ alert_ratio (query_available c (URL self)) = Ok a
    /\ (a <= availability s)%Q
    /\ (present values = length values -> a = availability s)
    /\ (present values < length values -> 0 < healthy values ->
        (a < availability s)%Q).
Proof.
  intros Hstore. rewrite getStats_unfold, Hstore.
  destruct (query_stats c 2 (URL self)) as [values|]; [|discriminate].
  rewrite stats_of_series.
  destruct (truediv (healthy values) (present values)) as [av|e] eqn:Hav;
    [|discriminate].
  intros [= _ <-]. simpl. apply truediv_Ok in Hav as [Hp ->].
  pose proof (present_le_length values) as Hlen.
  exists values, (Z.of_nat (healthy values) # Pos.of_nat (length values)).
  split; [reflexivity|].
  split.
  { change (alert_ratio (Some (map alert_view values))
            = Ok (Z.of_nat (healthy values) # Pos.of_nat (length values))).
    rewrite alert_ratio_view. apply truediv_Ok. split; [lia | reflexivity]. }
  unfold Qle, Qlt. simpl. rewrite !Zpos_of_nat by lia.
  split; [nia|]. split.
  - intros ->. reflexivity.
  - intros Hlt Hh. nia.
Qed.

Lemma checkAlert_ratio_le_availability_witness :
  exists values a,
    query_stats (Sample.store (Some Sample.mixed)) 2 (URL Sample.site)
      = Some values
    /\ alert_ratio (query_available (Sample.store (Some Sample.mixed))
                     (URL Sample.site)) = Ok a
    /\ (a <= availability Sample.mixed_stats)%Q
    /\ (present values = length values -> a = availability Sample.mixed_stats)
    /\ (present values < length values -> 0 < healthy values ->
        (a < availability Sample.mixed_stats)%Q).
Proof.
  apply (checkAlert_ratio_le_availability Sample.site
           (Sample.store (Some Sample.mixed)) true Sample.mixed_stats);
    [reflexivity | vm_compute; reflexivity].
Defined.

(** ** Further properties of [checkAlert] *)

Lemma alert_ratio_rows (values : list AlertRow) :
  values <> [] ->
  alert_ratio (Some values)
  = Ok (Z.of_nat (trues values) # Pos.of_nat (length values)).
Proof.
  intros Hne. rewrite alert_ratio_series. apply truediv_Ok.
  split; [destruct values; [congruence | simpl; lia] | reflexivity].
Qed.

Lemma lt_threshold_rows k n :
  0 < n -> lt (Z.of_nat k # Pos.of_nat n) threshold = true <-> 5 * k < 4 * n.
Proof.
  intros Hn. rewrite lt_spec. unfold Qlt, threshold. simpl.
  rewrite Zpos_of_nat by exact Hn. lia.
Qed.

(** X4: on a series with rows, with [k] rows up out of [n], a healthy
    retriever starts an alert exactly when [5 k < 4 n], and an alerting one
    recovers exactly when [4 n <= 5 k]: a ratio of 0.8 itself is healthy. *)
Theorem checkAlert_threshold self c t values :
  query_available c (URL self) = Some values ->
  values <> [] ->
  (Healthy self ->
   (Alerting (after self c t) <-> 5 * trues values < 4 * length values))
  /\ (Alerting self ->
      (Healthy (after self c t) <-> 4 * length values <= 5 * trues values)).
Proof.
  intros Hq Hne.
  assert (Hlen : 0 < length values) by (destruct values; [congruence | simpl; lia]).
  pose proof (alert_ratio_rows values Hne) as Hr. rewrite <- Hq in Hr.
  pose proof (lt_threshold_rows (trues values) (length values) Hlen) as Hlt.
  set (a := (Z.of_nat (trues values) # Pos.of_nat (length values))) in *.
  unfold Healthy, Alerting, after. split; intros Hs.
  - destruct (lt a threshold) eqn:Hcmp.
    + rewrite (checkAlert_alert self c t a Hr Hs Hcmp). simpl. tauto.
    + assert (Hge : ge a threshold = true)
        by (rewrite lt_ge in Hcmp; now destruct (ge a threshold)).
      rewrite (checkAlert_healthy self c t a Hr Hs Hge). simpl.
      rewrite Hs. split; [discriminate|]. intros Hk. apply Hlt in Hk. discriminate.
  - destruct (lt a threshold) eqn:Hcmp.
    + rewrite (checkAlert_ongoing self c t a Hr Hs Hcmp). simpl.
      rewrite Hs. split; [discriminate|]. intros Hk.
      assert (5 * trues values < 4 * length values) by now apply Hlt. lia.
    + assert (Hge : ge a threshold = true)
        by (rewrite lt_ge in Hcmp; now destruct (ge a threshold)).
      rewrite (checkAlert_recovery self c t a Hr Hs Hge). simpl.
      split; [|reflexivity]. intros _.
      destruct (Nat.lt_ge_cases (5 * trues values) (4 * length values)) as [Hk|Hk];
        [apply Hlt in Hk; discriminate | exact Hk].
Qed.

Lemma checkAlert_threshold_witness :
  (Healthy Sample.site ->
   (Alerting (after Sample.site (Sample.store (Some Sample.down)) 60000000)
    <-> 5 * trues (map alert_view Sample.down)
        < 4 * length (map alert_view Sample.down)))
  /\ (Alerting Sample.site ->
      (Healthy (after Sample.site (Sample.store (Some Sample.down)) 60000000)
       <-> 4 * length (map alert_view Sample.down)
           <= 5 * trues (map alert_view Sample.down))).
Proof.
  apply (checkAlert_threshold Sample.site (Sample.store (Some Sample.down))
           60000000%Z (map alert_view Sample.down));
    [reflexivity | discriminate].
Defined.

(** X5: the dictionary that [checkAlert] returns tells the step taken: no
    type when the retriever was and stays healthy, "alert" whenever it is
    alerting after the call (on every call of an alert, not only the first),
    "recovery" when it was alerting and is healthy again.  A notification
    carries the URL of the retriever, the ratio of this call and the alert
    number as stored after the call; an alert carries the stored start
    time of the alert, a recovery the time of the call. *)
Theorem checkAlert_notification self c t n :
  returned self c t = Ok n ->
  (kind_of n = None <-> Healthy self /\ Healthy (after self c t))
  /\ (kind_of n = Some "alert" <-> Alerting (after self c t))
  /\ (kind_of n = Some "recovery" <-> Alerting self /\ Healthy (after self c t))
  /\ (forall type url a time number,
        n = Notify type url a time number ->
        url = URL self
        /\ alert_ratio (query_available c (URL self)) = Ok a
        /\ number = pretty (alertNumber (alertData (after self c t)))
        /\ (type = "alert" -> time = alertTime (alertData (after self c t)))
        /\ (type = "recovery" -> time = t)).
Proof.
  unfold returned, after, Healthy, Alerting.
  destruct (alert_ratio (query_available c (URL self))) as [a|e] eqn:Hr;
    [|rewrite (checkAlert_raise self c t e Hr); discriminate].
  destruct (alertStatus (alertData self)) eqn:Hs;
    destruct (ge a threshold) eqn:Hge.
  - rewrite (checkAlert_recovery self c t a Hr Hs Hge). simpl.
    intros [= <-]. simpl. repeat split; try congruence; try tauto.
    all: try (intros; destruct_and?; congruence).
  - assert (Hlt : lt a threshold = true) by now rewrite lt_ge, Hge.
    rewrite (checkAlert_ongoing self c t a Hr Hs Hlt). simpl.
    intros [= <-]. simpl. rewrite Hs.
    repeat split; try congruence; try tauto.
    all: try (intros; destruct_and?; congruence).
  - rewrite (checkAlert_healthy self c t a Hr Hs Hge). simpl.
    intros [= <-]. simpl. rewrite Hs.
    repeat split; try congruence; try tauto.
    all: try (intros; destruct_and?; congruence).
  - assert (Hlt : lt a threshold = true) by now rewrite lt_ge, Hge.
    rewrite (checkAlert_alert self c t a Hr Hs Hlt). simpl.
    intros [= <-]. simpl.
    repeat split; try congruence; try tauto.
    all: try (intros; destruct_and?; congruence).
Qed.

Lemma checkAlert_notification_witness :
  returned Sample.site (Sample.store (Some Sample.down)) 60000000
    = Ok (Notify "alert" (URL Sample.site) (1 # 2) 60000000 "1")
  /\ (kind_of (Notify "alert" (URL Sample.site) (1 # 2) 60000000 "1")
        = Some "alert"
      <-> Alerting (after Sample.site (Sample.store (Some Sample.down)) 60000000)).
Proof.
  split; [vm_compute; reflexivity|].
  apply (checkAlert_notification Sample.site (Sample.store (Some Sample.down))
           60000000%Z (Notify "alert" (URL Sample.site) (1 # 2) 60000000%Z "1")).
  vm_compute; reflexivity.
Defined.

(** A call that raises or whose ratio is below 0.8 leaves an alerting
    retriever as it is and writes nothing. *)
Lemma checkAlert_low self c t :
  Alerting self -> low self (c, t) ->
  after self c t = self /\ written self c t = [].
Proof.
  intros Hs Hlow. unfold low in Hlow. simpl in Hlow. unfold after, written.
  destruct (alert_ratio (query_available c (URL self))) as [a|e] eqn:Hr.
  - assert (Hlt : lt a threshold = true) by (apply lt_spec; auto).
    now rewrite (checkAlert_ongoing self c t a Hr Hs Hlt).
  - now rewrite (checkAlert_raise self c t e Hr).
Qed.

Lemma checks_low self calls :
  Alerting self -> Forall (low self) calls ->
  checks self calls = self /\ log self calls = [].
Proof.
  intros Hs Hall. induction Hall as [|[c t] calls Hlow _ IH]; [now split|].
  destruct (checkAlert_low self c t Hs Hlow) as [Ha Hw].
  cbn [checks log]. rewrite Ha, Hw. exact IH.
Qed.

(** X6: an alert keeps its start time and its number: when a healthy
    retriever starts an alert at [t0] and the calls that follow raise or
    have a ratio below 0.8, they write nothing, and a later call with a
    ratio below 0.8 still returns an alert with the start time [t0] and the
    number given at [t0]. *)
Theorem alert_keeps_start self c0 t0 a0 calls c t a :
  Healthy self ->
  alert_ratio (query_available c0 (URL self)) = Ok a0 ->
  (a0 < threshold)%Q ->
  Forall (low self) calls ->
  alert_ratio (query_available c (URL self)) = Ok a ->
  (a < threshold)%Q ->
  log (after self c0 t0) calls = []
  /\ returned (checks (after self c0 t0) calls) c t
     = Ok (Notify "alert" (URL self) a t0
             (pretty (alertNumber (alertData self) + 1))).
Proof.
  intros Hs Hr0 Ha0%lt_spec Hall Hr Ha%lt_spec.
  pose proof (checkAlert_alert self c0 t0 a0 Hr0 Hs Ha0) as Hfirst.
  assert (Hafter : after self c0 t0
                   = {| URL := URL self;
                        alertData := {| alertStatus := true;
                                        alertNumber := alertNumber (alertData self) + 1;
                                        alertTime := t0 |} |})
    by (unfold after; now rewrite Hfirst).
  assert (Hs' : Alerting (after self c0 t0)) by now rewrite Hafter.
  assert (Hall' : Forall (low (after self c0 t0)) calls).
  { eapply Forall_impl; [exact Hall|]. intros call Hlow.
    unfold low in *. now rewrite Hafter. }
  destruct (checks_low _ calls Hs' Hall') as [-> ->].
  split; [reflexivity|]. unfold returned.
  rewrite (checkAlert_ongoing (after self c0 t0) c t a).
  - rewrite Hafter. reflexivity.
  - rewrite Hafter. exact Hr.
  - exact Hs'.
  - exact Ha.
Qed.

Lemma alert_keeps_start_witness :
  returned
    (checks (after Sample.site (Sample.store (Some Sample.down)) 60000000)
            [(Sample.store None, 70000000%Z)])
    (Sample.store (Some Sample.down)) 80000000
  = Ok (Notify "alert" (URL Sample.site) (1 # 2) 60000000 "1").
Proof.
  apply (alert_keeps_start Sample.site (Sample.store (Some Sample.down))
           60000000%Z (1 # 2) [(Sample.store None, 70000000%Z)]
           (Sample.store (Some Sample.down)) 80000000%Z (1 # 2)).
  - reflexivity.
  - vm_compute; reflexivity.
  - reflexivity.
  - constructor; [|constructor]. intros a Ha. vm_compute in Ha. discriminate.
  - vm_compute; reflexivity.
  - reflexivity.
Defined.

Lemma events_app kind l1 l2 :
  events kind (l1 ++ l2) = events kind l1 + events kind l2.
Proof. unfold events. now rewrite filter_app, length_app. Qed.

(** One call: what it writes against what it changes. *)
Lemma written_step self c t :
  events "alert" (written self c t) + alerting self
  = events "recovery" (written self c t) + alerting (after self c t)
  /\ alertNumber (alertData (after self c t))
     = alertNumber (alertData self) + events "alert" (written self c t)
  /\ Forall (fun p => measurement p = "website_alerts" /\ host p = URL self
                      /\ (field_type p = "alert" \/ field_type p = "recovery"))
       (written self c t)
  /\ length (written self c t) <= 1.
Proof.
  unfold alerting.
  destruct (checkAlert_outcome self c t) as
    [e Hr Ha Hw|a Hr Hs Hge Hs' Hn Hw|a Hr Hs Hlt Ha Hw
    |a Hr Hs Hlt Hs' Hn Hw|a Hr Hs Hge Ha Hw];
    unfold Healthy, Alerting in *; rewrite Hw;
    try rewrite Ha; try rewrite Hn; try rewrite Hs; try rewrite Hs';
    repeat split; try (vm_compute; lia); try (simpl; lia);
    try (constructor; [|constructor]); auto.
  all: try (vm_compute; destruct (alertStatus (alertData self)); lia).
Qed.

(** X7: the points written over any sequence of calls mirror the state:
    alerts and recoveries alternate (the alerts written, plus one if the
    retriever was alerting at first, are the recoveries written, plus one if
    it is alerting at the end), the alert number grows by the number of
    alerts written, every point goes to "website_alerts" under the URL of
    the retriever, and a call writes at most one point. *)
Theorem alert_log self calls :
  events "alert" (log self calls) + alerting self
  = events "recovery" (log self calls) + alerting (checks self calls)
  /\ alertNumber (alertData (checks self calls))
     = alertNumber (alertData self) + events "alert" (log self calls)
  /\ Forall (fun p => measurement p = "website_alerts" /\ host p = URL self
                      /\ (field_type p = "alert" \/ field_type p = "recovery"))
       (log self calls)
  /\ length (log self calls) <= length calls.
Proof.
  revert self. induction calls as [|[c t] calls IH]; intros self.
  - cbn [log checks]. repeat split; try (vm_compute; lia); try constructor.
    unfold events. simpl. lia.
  - cbn [log checks]. rewrite !events_app, length_app.
    destruct (written_step self c t) as (Hbal & Hnum & Hpts & Hlen).
    destruct (IH (after self c t)) as (Hbal' & Hnum' & Hpts' & Hlen').
    rewrite URL_after in Hpts'.
    repeat split; try (simpl; lia).
    apply Forall_app. split; assumption.
Qed.

(** ** Further properties of the tasks *)

Lemma report_target_state c now flag retriever :
  (App.report_target c now flag retriever).1
  = (after retriever c now, written retriever c now).
Proof.
  unfold App.report_target, after, written.
  now destruct (checkAlert retriever c now) as [[r pts] alert].
Qed.

(** X8: an exception in the report of one website ends the loop of
    [__printResults]: the websites before it keep what their calls did, the
    website itself keeps what [checkAlert] did, the websites after it are
    not evaluated in this firing, and the exception is the outcome. *)
Theorem report_loop_abort c now flag before website retriever rest
    before' points reports retriever' points1 e :
  App.report_loop c now flag before = (before', points, Ok reports) ->
  App.report_target c now flag retriever = (retriever', points1, Raise e) ->
  App.report_loop c now flag (before ++ (website, retriever) :: rest)%list
  = ((before' ++ (website, retriever') :: rest)%list,
     (points ++ points1)%list, Raise e).
Proof.
  intros Hbefore Htarget. revert before' points reports Hbefore.
  induction before as [|[w r] before IH]; intros before' points reports.
  - cbn [App.report_loop]. intros [= <- <- _]. simpl. now rewrite Htarget.
  - cbn [App.report_loop app].
    destruct (App.report_target c now flag r) as [[r1 pts1] [rep|e1]];
      [|discriminate].
    destruct (App.report_loop c now flag before) as [[b1 pts2] res] eqn:Hb.
    destruct res as [reps|e2]; simpl; [|discriminate].
    intros [= <- <- _].
    rewrite (IH b1 pts2 reps eq_refl). simpl. now rewrite <- app_assoc.
Qed.

Lemma report_loop_abort_witness :
  App.report_loop (Sample.store (Some Sample.unknown)) 60000000 false
    ([] ++ (URL Sample.site, Sample.site) :: Sample.websites)%list
  = (([] ++ (URL Sample.site,
             after Sample.site (Sample.store (Some Sample.unknown)) 60000000)
         :: Sample.websites)%list,
     ([] ++ written Sample.site (Sample.store (Some Sample.unknown)) 60000000)%list,
     Raise ZeroDivisionError).
Proof.
  apply (report_loop_abort (Sample.store (Some Sample.unknown)) 60000000%Z false
           [] (URL Sample.site) Sample.site Sample.websites [] [] []);
    vm_compute; reflexivity.
Defined.

Lemma kept_refl entry : kept entry entry.
Proof. unfold kept. auto. Qed.

Lemma kept_after website retriever c now :
  kept (website, retriever) (website, after retriever c now).
Proof.
  unfold kept. simpl. rewrite URL_after, alertNumber_step. repeat split; lia.
Qed.

Lemma report_loop_kept c now flag retrievers :
  Forall2 kept retrievers (App.report_loop c now flag retrievers).1.1
  /\ Forall (fun p => measurement p = "website_alerts"
                      /\ exists entry, entry ∈ retrievers /\ host p = URL entry.2)
       (App.report_loop c now flag retrievers).1.2
  /\ length (App.report_loop c now flag retrievers).1.2 <= length retrievers.
Proof.
  induction retrievers as [|[w r] rest IH]; cbn [App.report_loop].
  - simpl. repeat split; constructor.
  - pose proof (report_target_state c now flag r) as Hstate.
    destruct (App.report_target c now flag r) as [[r1 pts1] res].
    simpl in Hstate. injection Hstate as -> ->.
    destruct (written_step r c now) as (_ & _ & Hpts & Hlen).
    assert (Hhere : Forall (fun p => measurement p = "website_alerts"
                      /\ exists entry, entry ∈ (w, r) :: rest
                                       /\ host p = URL entry.2)
                      (written r c now)).
    { eapply Forall_impl; [exact Hpts|]. intros p (Hm & Hh & _).
      split; [exact Hm|]. exists (w, r). split; [now left | exact Hh]. }
    destruct res as [rep|e]; simpl.
    + destruct (App.report_loop c now flag rest) as [[rest' pts'] reps].
      simpl in *. destruct IH as (Hkept & Hhosts & Hcount).
      split; [constructor; [apply kept_after | exact Hkept]|].
      split.
      * apply Forall_app. split; [exact Hhere|].
        eapply Forall_impl; [exact Hhosts|]. intros p (Hm & entry & Hin & Hh).
        split; [exact Hm|]. exists entry. split; [now right | exact Hh].
      * rewrite length_app. lia.
    + split; [constructor; [apply kept_after|]|].
      * clear. induction rest; constructor; [apply kept_refl | assumption].
      * split; [exact Hhere | lia].
Qed.

Lemma kept_trans a b c : kept a b -> kept b c -> kept a c.
Proof. unfold kept. intros (? & ? & ?) (? & ? & ?). repeat split; try congruence. lia. Qed.

Lemma Forall2_kept_trans l1 l2 l3 :
  Forall2 kept l1 l2 -> Forall2 kept l2 l3 -> Forall2 kept l1 l3.
Proof.
  intros H12. revert l3. induction H12 as [|a b l1 l2 Hab _ IH]; intros l3 H23.
  - inversion H23. constructor.
  - inversion H23 as [|b' c' l2' l3' Hbc Hrest]; subst.
    constructor; [eapply kept_trans; eauto | apply IH; exact Hrest].
Qed.

Lemma kept_hosts (l1 l2 : list (string * Retriever)) entry :
  Forall2 kept l1 l2 -> entry ∈ l2 ->
  exists entry', entry' ∈ l1 /\ URL entry'.2 = URL entry.2.
Proof.
  induction 1 as [|a b l1 l2 Hab _ IH]; intros Hin; [inversion Hin|].
  apply elem_of_cons in Hin as [->|Hin].
  - exists a. split; [now left | symmetry; apply Hab].
  - destruct (IH Hin) as (entry' & Hin' & Hurl).
    exists entry'. split; [now right | exact Hurl].
Qed.

(** X9: over any number of firings of the report task, whatever the store
    answers and also when a firing raises, the retrievers stay the same
    websites in the same order with the same URLs, no alert number goes
    down, every point written goes to "website_alerts" under the URL of one
    of the websites, and at most one point is written per website and
    firing. *)
Theorem report_firings_kept retrievers printInterval countdown ticks :
  Forall2 kept retrievers
    (report_firings retrievers printInterval countdown ticks).1
  /\ Forall (fun p => measurement p = "website_alerts"
                      /\ exists entry, entry ∈ retrievers /\ host p = URL entry.2)
       (report_firings retrievers printInterval countdown ticks).2
  /\ length (report_firings retrievers printInterval countdown ticks).2
     <= length ticks * length retrievers.
Proof.
  revert retrievers printInterval countdown.
  induction ticks as [|[c now] ticks IH]; intros retrievers printInterval countdown.
  - simpl. split; [|split; [constructor | lia]].
    induction retrievers; constructor; [apply kept_refl | assumption].
  - cbn [report_firings]. unfold App.printResults, App.rearm.
    set (flag := (countdown =? 0)%Z).
    set (next := (if flag then 5 else countdown - 1)%Z).
    assert (Hprint :
      (let '(resultsPrinting, printMinuteCheck) :=
         if flag then (App.printResults_task printInterval 5, true)
         else (App.printResults_task printInterval (countdown - 1), false) in
       (App.Timer_start printInterval resultsPrinting (App.spawn 0),
        printMinuteCheck, App.report_loop c now printMinuteCheck retrievers))
      = (App.Timer_start printInterval (App.printResults_task printInterval next)
           (App.spawn 0), flag, App.report_loop c now flag retrievers))
      by (unfold next; destruct flag; reflexivity).
    rewrite Hprint. clear Hprint.
    destruct (report_loop_kept c now flag retrievers) as (Hkept & Hhosts & Hcount).
    destruct (App.report_loop c now flag retrievers) as [[retrievers' points] res].
    simpl in Hkept, Hhosts, Hcount. simpl.
    destruct (IH retrievers' printInterval next) as (Hkept' & Hhosts' & Hcount').
    destruct (report_firings retrievers' printInterval next ticks)
      as [final points'].
    simpl in *. split; [eapply Forall2_kept_trans; eauto|].
    assert (Hsame : length retrievers' = length retrievers)
      by (symmetry; eapply Forall2_length; eauto).
    split.
    + apply Forall_app. split; [exact Hhosts|].
      eapply Forall_impl; [exact Hhosts'|]. intros p (Hm & entry & Hin & Hh).
      split; [exact Hm|].
      destruct (kept_hosts _ _ entry Hkept Hin) as (entry' & Hin' & Hurl).
      exists entry'. split; [exact Hin' | congruence].
    + rewrite length_app. nia.
Qed.

(** X10: the calls of one report are not undone by a later exception: when
    [checkAlert] starts an alert for a healthy website and [getStats(2)]
    then raises, the retriever is alerting with the next alert number, the
    alert point has been handed to the store, and the report of the website
    is lost with the exception. *)
Theorem report_target_alert_then_raise c now flag retriever a e :
  Healthy retriever ->
  alert_ratio (query_available c (URL retriever)) = Ok a ->
  (a < threshold)%Q ->
  getStats retriever c 2 = Raise e ->
  App.report_target c now flag retriever
  = ({| URL := URL retriever;
        alertData := {| alertStatus := true;
                        alertNumber := alertNumber (alertData retriever) + 1;
                        alertTime := now |} |},
     [alert_event "alert" retriever now a],
     Raise e).
Proof.
  intros Hs Hr Ha%lt_spec Hstats. unfold App.report_target.
  rewrite (checkAlert_alert retriever c now a Hr Hs Ha).
  rewrite !getStats_unfold in *. simpl. rewrite Hstats. reflexivity.
Qed.

Lemma report_target_alert_then_raise_witness :
  App.report_target (Sample.store (Some Sample.unknown)) 60000000 true Sample.site
  = ({| URL := URL Sample.site;
        alertData := {| alertStatus := true;
                        alertNumber := alertNumber (alertData Sample.site) + 1;
                        alertTime := 60000000 |} |},
     [alert_event "alert" Sample.site 60000000 (0 # 1)],
     Raise ZeroDivisionError).
Proof.
  apply (report_target_alert_then_raise (Sample.store (Some Sample.unknown))
           60000000%Z true Sample.site (0 # 1) ZeroDivisionError);
    vm_compute; reflexivity.
Defined.



(** ** The configuration *)

Section ConfigFacts.
Import Config.

Lemma key_eq_spec a b :
  key_eq a b = true
  <-> (a = JNull /\ b = JNull)
      \/ (exists s, a = JString s /\ b = JString s)
      \/ (exists x y, number_of a = Some x /\ number_of b = Some y /\ (x == y)%Q).
Proof.
  split.
  - destruct a, b; simpl; try discriminate; intros Heq.
    all: try (left; now split).
    all: try (right; right; do 2 eexists;
              split; [reflexivity | split; [reflexivity|]];
              now apply Qeq_bool_iff).
    right; left. apply String.eqb_eq in Heq as ->. eauto.
  - intros [[-> ->]|[(s & -> & ->)|(x & y & Hx & Hy & Hxy)]].
    + reflexivity.
    + simpl. apply String.eqb_refl.
    + destruct a, b; simpl in *; try discriminate;
        injection Hx as <-; injection Hy as <-; now apply Qeq_bool_iff.
Qed.

Lemma key_eq_sym a b : key_eq a b = true -> key_eq b a = true.
Proof.
  rewrite !key_eq_spec.
  intros [[-> ->]|[(s & -> & ->)|(x & y & Hx & Hy & Hxy)]]; eauto 10.
  right; right. exists y, x. repeat split; auto. now symmetry.
Qed.

Lemma key_eq_trans a b c :
  key_eq a b = true -> key_eq b c = true -> key_eq a c = true.
Proof.
  rewrite !key_eq_spec.
  intros [[-> ->]|[(s & -> & ->)|(x & y & Hx & Hy & Hxy)]]
         [[Hb ->]|[(s' & Hb & ->)|(y' & z & Hy' & Hz & Hyz)]];
    try subst b; simpl in *; try discriminate.
  - now left.
  - right; left. injection Hb as <-. eauto.
  - right; right. exists x, z. repeat split; auto.
    rewrite Hy in Hy'. injection Hy' as <-. now rewrite Hxy.
Qed.

(** Equal keys compare alike with any third. *)
Lemma key_eq_transfer a b c : key_eq a b = true -> key_eq a c = key_eq b c.
Proof.
  intros Hab. apply Bool.eq_true_iff_eq. split; intros H.
  - eapply key_eq_trans; [apply key_eq_sym; exact Hab | exact H].
  - eapply key_eq_trans; eauto.
Qed.

Lemma key_eq_refl a : hashable a = true -> key_eq a a = true.
Proof.
  destruct a; simpl; try discriminate; intros _; try reflexivity.
  - apply Qeq_bool_iff. reflexivity.
  - apply Qeq_bool_iff. reflexivity.
  - apply String.eqb_refl.
Qed.

(** Reading after writing. *)
Lemma getitem_setitem res u v k :
  getitem (setitem res u v) k
  = if key_eq u k then Some v else getitem res k.
Proof.
  induction res as [|[k' v'] rest IH]; [reflexivity|].
  cbn [setitem]. destruct (key_eq k' u) eqn:Hu; cbn [getitem].
  - rewrite (key_eq_transfer k' u k Hu). now destruct (key_eq u k).
  - rewrite IH. destruct (key_eq k' k) eqn:Hk; [|reflexivity].
    destruct (key_eq u k) eqn:Huk; [|reflexivity].
    assert (key_eq k' u = true)
      by (eapply key_eq_trans; [exact Hk | apply key_eq_sym; exact Huk]).
    congruence.
Qed.

Lemma configure_entry d res website :
  configure d res website
  = (fun e : json * json => setitem res e.1 e.2) <$> entry d website.
Proof.
  unfold configure, entry. destruct website; try reflexivity.
  destruct (get "URL" members) as [url|]; [|reflexivity].
  now destruct (hashable url).
Qed.

Lemma step_entry d state website :
  step d state website
  = match entry d website with
    | Some e => (state.1, setitem state.2 e.1 e.2)
    | None => ((state.1 ++ [website_error])%list, state.2)
    end.
Proof.
  unfold step. rewrite configure_entry. now destruct (entry d website).
Qed.

Lemma last_cons_or {A} (x : A) (l : list A) :
  last (x :: l) = match last l with Some y => Some y | None => Some x end.
Proof.
  revert x. induction l as [|y l IH]; intros x; [reflexivity|].
  change (last (x :: y :: l)) with (last (y :: l)).
  rewrite (IH y). now destruct (last l).
Qed.

Lemma getitem_foldl_step d items state k :
  getitem (foldl (step d) state items).2 k
  = match last_entry d items k with
    | Some v => Some v
    | None => getitem state.2 k
    end.
Proof.
  unfold last_entry.
  set (f := fun website =>
              match entry d website with
              | Some (url, checkInterval) =>
                  if key_eq url k then Some checkInterval else None
              | None => None
              end).
  revert state.
  induction items as [|website items IH]; intros state; [reflexivity|].
  cbn [foldl]. rewrite IH, step_entry.
  assert (Hcons : omap f (website :: items)
                  = match f website with
                    | Some x => x :: omap f items
                    | None => omap f items
                    end) by reflexivity.
  rewrite Hcons. unfold f at 2.
  destruct (entry d website) as [[url v]|]; simpl; [|reflexivity].
  rewrite getitem_setitem. destruct (key_eq url k); [|reflexivity].
  rewrite last_cons_or. now destruct (last (omap f items)).
Qed.
End ConfigFacts.

Section ConfigTheorems.
Import Config.

Lemma setitem_keys res u v :
  map fst (setitem res u v)
  = if existsb (fun k' => key_eq k' u) (map fst res)
    then map fst res else (map fst res ++ [u])%list.
Proof.
  induction res as [|[k' v'] rest IH]; [reflexivity|].
  cbn [setitem map existsb fst]. destruct (key_eq k' u); [reflexivity|].
  cbn [map fst orb]. rewrite IH.
  now destruct (existsb (fun k' => key_eq k' u) (map fst rest)).
Qed.

Lemma existsb_false_Forall (ks : list json) u :
  existsb (fun k' => key_eq k' u) ks = false
  <-> Forall (fun k' => key_eq k' u = false) ks.
Proof.
  induction ks as [|k ks IH]; simpl.
  - split; [constructor | reflexivity].
  - rewrite Bool.orb_false_iff, IH, Forall_cons. reflexivity.
Qed.

Lemma distinct_snoc ks u :
  distinct ks -> Forall (fun k' => key_eq k' u = false) ks ->
  distinct (ks ++ [u]).
Proof.
  induction ks as [|k ks IH]; simpl.
  - intros _ _. split; [constructor | exact I].
  - intros [Hk Hd] [Hku Hrest]%Forall_cons. split.
    + apply Forall_app. split; [exact Hk | constructor; [exact Hku | constructor]].
    + now apply IH.
Qed.

Lemma setitem_distinct res u v :
  distinct (map fst res) -> distinct (map fst (setitem res u v)).
Proof.
  intros Hd. rewrite setitem_keys.
  destruct (existsb (fun k' => key_eq k' u) (map fst res)) eqn:He; [exact Hd|].
  apply distinct_snoc; [exact Hd | now apply existsb_false_Forall].
Qed.

Lemma foldl_step_distinct d items state :
  distinct (map fst state.2) ->
  distinct (map fst (foldl (step d) state items).2).
Proof.
  revert state. induction items as [|website items IH]; intros state Hd;
    [exact Hd|].
  cbn [foldl]. apply IH. rewrite step_entry.
  destruct (entry d website) as [e|]; simpl; [now apply setitem_distinct | exact Hd].
Qed.

(** The loop of the loader: the dictionary comes from the websites that give
    an entry, the others give one line each. *)
Lemma foldl_step_entries d items state :
  (foldl (step d) state items).2
  = foldl (fun res e => setitem res e.1 e.2) state.2 (omap (entry d) items)
  /\ exists lines,
      (foldl (step d) state items).1 = (state.1 ++ lines)%list
      /\ Forall (fun m => m = website_error) lines
      /\ length lines + length (omap (entry d) items) = length items.
Proof.
  revert state. induction items as [|website items IH]; intros state.
  - split; [reflexivity|]. exists []. rewrite app_nil_r. repeat split. constructor.
  - cbn [foldl]. destruct (IH (step d state website)) as (Hres & lines & Hout & Hall & Hlen).
    rewrite Hres, Hout, step_entry.
    assert (Hcons : omap (entry d) (website :: items)
                    = match entry d website with
                      | Some e => e :: omap (entry d) items
                      | None => omap (entry d) items
                      end) by reflexivity.
    rewrite Hcons. destruct (entry d website) as [e|]; simpl.
    + split; [reflexivity|]. exists lines. repeat split; auto. lia.
    + split; [reflexivity|]. exists (website_error :: lines).
      rewrite <- app_assoc. repeat split; auto. simpl. lia.
Qed.

Lemma loadJSONConfig_array members items :
  get "websites" members = Some (JArray items) ->
  loadJSONConfig (Loaded (JObject members))
  = let state := foldl (step (default (JNumber 2)
                                (get "defaultCheckInterval" members)))
                   ([], []) items in
    (state.1, Some state.2).
Proof. intros Hw. unfold loadJSONConfig. now rewrite Hw. Qed.

(** X12: reading the loaded dictionary.  With a list of websites, the value
    under a key is the check interval of the last website whose URL equals
    the key, the default of the file (2 when the file has none) when that
    website has no interval of its own; websites without URL and values
    that are no objects count for nothing; and no two keys of the
    dictionary are equal. *)
Theorem loadJSONConfig_lookup members items k :
  get "websites" members = Some (JArray items) ->
  exists res,
    (loadJSONConfig (Loaded (JObject members))).2 = Some res
    /\ getitem res k
       = last_entry (default (JNumber 2) (get "defaultCheckInterval" members))
           items k
    /\ distinct (map fst res).
Proof.
  intros Hw. rewrite (loadJSONConfig_array members items Hw). cbv zeta.
  eexists. split; [reflexivity|]. split.
  - rewrite getitem_foldl_step. simpl.
    now destruct (last_entry _ items k).
  - apply foldl_step_distinct. exact I.
Qed.

Lemma loadJSONConfig_lookup_witness :
  exists res,
    (loadJSONConfig (Loaded example)).2 = Some res
    /\ getitem res (JString "http://b.example") = Some (JNumber 3)
    /\ distinct (map fst res).
Proof.
  destruct (loadJSONConfig_lookup
              [ ("websites",
                 JArray [ JObject [ ("URL", JString "http://a.example");
                                    ("checkInterval", JNumber 5) ];
                          JObject [ ("URL", JString "http://b.example") ];
                          JObject [ ("checkInterval", JNumber 1) ] ]);
                ("defaultCheckInterval", JNumber 3) ]
              [ JObject [ ("URL", JString "http://a.example");
                          ("checkInterval", JNumber 5) ];
                JObject [ ("URL", JString "http://b.example") ];
                JObject [ ("checkInterval", JNumber 1) ] ]
              (JString "http://b.example") eq_refl)
    as (res & Hres & Hget & Hd).
  exists res. split; [exact Hres|]. split; [|exact Hd].
  rewrite Hget. vm_compute. reflexivity.
Defined.

(** X13: a website that gives no entry (no object, no "URL", a URL that
    cannot be a key) is skipped with one line "Error during configuration of
    website" and changes nothing else: the dictionary is the one built from
    the entries of the other websites, in their order, and the lines printed
    are one per skipped website. *)
Theorem loadJSONConfig_skips members items :
  get "websites" members = Some (JArray items) ->
  let d := default (JNumber 2) (get "defaultCheckInterval" members) in
  (loadJSONConfig (Loaded (JObject members))).2
  = Some (foldl (fun res e => setitem res e.1 e.2) [] (omap (entry d) items))
  /\ Forall (fun m => m = website_error)
       (loadJSONConfig (Loaded (JObject members))).1
  /\ length (loadJSONConfig (Loaded (JObject members))).1
     + length (omap (entry d) items) = length items.
Proof.
  intros Hw d. rewrite (loadJSONConfig_array members items Hw). cbv zeta.
  destruct (foldl_step_entries d items ([], [])) as (Hres & lines & Hout & Hall & Hlen).
  fold d. simpl. rewrite Hres, Hout. simpl. auto.
Qed.

Lemma loadJSONConfig_skips_witness :
  (loadJSONConfig (Loaded example)).2
  = Some [ (JString "http://a.example", JNumber 5);
           (JString "http://b.example", JNumber 3) ]
  /\ (loadJSONConfig (Loaded example)).1 = [website_error].
Proof.
  destruct (loadJSONConfig_skips
              [ ("websites",
                 JArray [ JObject [ ("URL", JString "http://a.example");
                                    ("checkInterval", JNumber 5) ];
                          JObject [ ("URL", JString "http://b.example") ];
                          JObject [ ("checkInterval", JNumber 1) ] ]);
                ("defaultCheckInterval", JNumber 3) ]
              [ JObject [ ("URL", JString "http://a.example");
                          ("checkInterval", JNumber 5) ];
                JObject [ ("URL", JString "http://b.example") ];
                JObject [ ("checkInterval", JNumber 1) ] ]
              eq_refl) as (Hres & _ & _).
  split; [exact Hres | vm_compute; reflexivity].
Defined.
End ConfigTheorems.

Section ConfigEdges.
Import Config.

Lemma distinct_app_inv (l1 l2 : list json) k :
  distinct (l1 ++ k :: l2) -> Forall (fun k' => key_eq k' k = false) l1.
Proof.
  induction l1 as [|x l1 IH]; simpl; [constructor|].
  intros [Hx Hd]. constructor; [|now apply IH].
  apply Forall_app in Hx as [_ Hx]. now apply Forall_cons in Hx as [Hx _].
Qed.

Lemma setitem_fresh res u v :
  Forall (fun k' => key_eq k' u = false) (map fst res) ->
  setitem res u v = (res ++ [(u, v)])%list.
Proof.
  induction res as [|[k' v'] rest IH]; [reflexivity|].
  cbn [map fst]. intros [Hk Hrest]%Forall_cons. cbn [setitem]. rewrite Hk.
  now rewrite IH.
Qed.

Lemma foldl_setitem_distinct (es res : list (json * json)) :
  distinct (map fst (res ++ es)) ->
  foldl (fun res e => setitem res e.1 e.2) res es = (res ++ es)%list.
Proof.
  revert res. induction es as [|[u v] es IH]; intros res Hd.
  - now rewrite app_nil_r.
  - cbn [foldl fst snd]. rewrite setitem_fresh.
    + rewrite IH; rewrite <- app_assoc; [reflexivity | exact Hd].
    + rewrite map_app in Hd. cbn [map fst] in Hd.
      now apply distinct_app_inv in Hd.
Qed.

Lemma omap_all_entries d items :
  Forall (fun website => is_Some (entry d website)) items ->
  length (omap (entry d) items) = length items.
Proof.
  induction 1 as [|website items [e He] _ IH]; [reflexivity|].
  cbn [omap list_omap]. rewrite He. simpl. f_equal. exact IH.
Qed.

(** X14: a list of websites that all have a URL, no two of them equal,
    loads as it stands: the dictionary has one item per website, in the
    order of the file, with the check interval of the website or the
    default of the file, and nothing is printed. *)
Theorem loadJSONConfig_distinct members items :
  get "websites" members = Some (JArray items) ->
  let d := default (JNumber 2) (get "defaultCheckInterval" members) in
  Forall (fun website => is_Some (entry d website)) items ->
  distinct (map fst (omap (entry d) items)) ->
  loadJSONConfig (Loaded (JObject members)) = ([], Some (omap (entry d) items)).
Proof.
  intros Hw d Hall Hd. rewrite (loadJSONConfig_array members items Hw). cbv zeta.
  destruct (foldl_step_entries d items ([], [])) as (Hres & lines & Hout & _ & Hlen).
  fold d. rewrite (omap_all_entries d items Hall) in Hlen.
  destruct lines; [|simpl in Hlen; lia].
  rewrite Hres, Hout. simpl. now rewrite foldl_setitem_distinct.
Qed.

Lemma loadJSONConfig_distinct_witness :
  loadJSONConfig
    (Loaded (JObject [ ("websites",
                        JArray [ JObject [ ("URL", JString "http://a.example");
                                           ("checkInterval", JNumber 5) ];
                                 JObject [ ("URL", JString "http://b.example") ] ]) ]))
  = ([], Some [ (JString "http://a.example", JNumber 5);
                (JString "http://b.example", JNumber 2) ]).
Proof.
  apply (loadJSONConfig_distinct
           [ ("websites",
              JArray [ JObject [ ("URL", JString "http://a.example");
                                 ("checkInterval", JNumber 5) ];
                       JObject [ ("URL", JString "http://b.example") ] ]) ]
           [ JObject [ ("URL", JString "http://a.example");
                       ("checkInterval", JNumber 5) ];
             JObject [ ("URL", JString "http://b.example") ] ]).
  - reflexivity.
  - repeat constructor; eexists; reflexivity.
  - simpl. repeat split; repeat constructor.
Defined.

Lemma foldl_step_no_entry d items state :
  Forall (fun website => entry d website = None) items ->
  foldl (step d) state items
  = ((state.1 ++ replicate (length items) website_error)%list, state.2).
Proof.
  intros Hall. revert state.
  induction Hall as [|website items He _ IH]; intros state.
  - simpl. rewrite app_nil_r. now destruct state.
  - cbn [foldl]. rewrite IH, step_entry, He. simpl. now rewrite <- app_assoc.
Qed.

Lemma length_chars s : length (chars s) = String.length s.
Proof. induction s as [|a s IH]; simpl; [reflexivity | now rewrite IH]. Qed.

Lemma strings_no_entry d (l : list string) :
  Forall (fun website => entry d website = None) (JString <$> l).
Proof. induction l; constructor; auto. Qed.

(** X15: the edges of the loader.  Without a "websites" key it prints "No
    websites found" and returns the empty dictionary; when "websites" is a
    string or an object it iterates the characters or the keys, prints one
    error line for each and returns the empty dictionary; when it is a
    number, a boolean or null, and only then for a loaded object, it returns
    [None]; and whenever it returns [None] it has printed exactly one line,
    "Configuration file not found" for a missing file and "Error while
    loading file" otherwise. *)
Theorem loadJSONConfig_edges members s fields w f :
  (get "websites" members = None ->
   loadJSONConfig (Loaded (JObject members)) = ([no_websites], Some []))
  /\ (get "websites" members = Some (JString s) ->
      loadJSONConfig (Loaded (JObject members))
      = (replicate (String.length s) website_error, Some []))
  /\ (get "websites" members = Some (JObject fields) ->
      loadJSONConfig (Loaded (JObject members))
      = (replicate (length (keys fields)) website_error, Some []))
  /\ (get "websites" members = Some w ->
      ((loadJSONConfig (Loaded (JObject members))).2 = None
       <-> w = JNull \/ (exists b, w = JBool b) \/ (exists q, w = JNumber q)))
  /\ ((loadJSONConfig f).2 = None ->
      exists m, (loadJSONConfig f).1 = [m]
                /\ (m = file_not_found <-> f = FileNotFound)
                /\ (m = file_not_found \/ m = loading_error)).
Proof.
  split; [|split; [|split; [|split]]].
  - intros Hw. unfold loadJSONConfig. now rewrite Hw.
  - intros Hw. unfold loadJSONConfig. rewrite Hw. cbn [iter].
    rewrite foldl_step_no_entry by apply strings_no_entry.
    simpl. now rewrite length_fmap, length_chars.
  - intros Hw. unfold loadJSONConfig. rewrite Hw. cbn [iter].
    rewrite foldl_step_no_entry by apply strings_no_entry.
    simpl. now rewrite length_fmap.
  - intros Hw. unfold loadJSONConfig. rewrite Hw.
    destruct w; simpl; split; try discriminate; eauto;
      intros [?|[[? ?]|[? ?]]]; discriminate.
  - unfold loadJSONConfig. destruct f as [| |j]; simpl.
    + intros _. exists file_not_found. repeat split; auto.
    + intros _. exists loading_error. repeat split; auto; discriminate.
    + destruct j as [| | | | |ms]; simpl;
        try (intros _; exists loading_error; repeat split; auto; discriminate).
      destruct (get "websites" ms) as [w0|]; [|simpl; discriminate].
      destruct (iter w0); simpl; [discriminate|].
      intros _. exists loading_error. repeat split; auto; discriminate.
Qed.

Lemma loadJSONConfig_edges_witness :
  loadJSONConfig (Loaded (JObject [("websites", JString "ab")]))
  = (replicate (String.length "ab") website_error, Some [])
  /\ (exists m, (loadJSONConfig FileNotFound).1 = [m]
                 /\ (m = file_not_found <-> FileNotFound = FileNotFound)
                 /\ (m = file_not_found \/ m = loading_error)).
Proof.
  destruct (loadJSONConfig_edges [("websites", JString "ab")] "ab" []
              (JString "ab") FileNotFound) as (_ & Hs & _ & _ & Hf).
  split; [apply Hs; reflexivity | apply Hf; reflexivity].
Defined.
End ConfigEdges.

(** ** The order of the records *)







